(** * A leveled logger: shallow embedding of [logger/logger.go]

    The package keeps its configuration and its output sink in package-level
    variables, so the embedding threads a [world] through every operation.
    A call ends in one of four ways: it returns, it panics with an error
    value, it exits the process, or it blocks on the mutex. *)

From Stdlib Require Import String Ascii List ZArith Bool Lia Arith.
From Stdlib Require Import Numbers.DecimalString.
From Stdlib Require Import Sorting.Permutation.
Import ListNotations.

Local Open Scope string_scope.
Local Open Scope bool_scope.

(** ** Bytes and strings

    A Go string is a sequence of bytes; [string] (a list of [ascii]) is the
    same thing. *)

Definition tab : ascii := "009"%char.
Definition newline : ascii := "010"%char.
Definition carriage_return : ascii := "013"%char.

Definition str (c : ascii) : string := String c EmptyString.

(** [strings.Repeat "\n" k], used to state facts on trailing newlines. *)
Fixpoint newlines (k : nat) : string :=
  match k with
  | O => EmptyString
  | S k' => String newline (newlines k')
  end.

(** [strings.HasPrefix s p]. *)
Fixpoint has_prefix (s p : string) {struct p} : bool :=
  match p, s with
  | EmptyString, _ => true
  | String _ _, EmptyString => false
  | String a p', String b s' => Ascii.eqb a b && has_prefix s' p'
  end.

(** [strings.Index s substr]: the index of the first instance of [substr] in
    [s], or -1 when there is none. [index_from] carries the offset of [s] in
    the string the search started from. *)
Fixpoint index_from (i : Z) (s substr : string) : Z :=
  if has_prefix s substr then i
  else match s with
       | EmptyString => (-1)%Z
       | String _ s' => index_from (i + 1)%Z s' substr
       end.

Definition strings_Index (s substr : string) : Z := index_from 0%Z s substr.

(** [len(s)] as a Go [int]. *)
Definition len (s : string) : Z := Z.of_nat (String.length s).

Fixpoint drop (n : nat) (s : string) : string :=
  match n, s with
  | O, _ => s
  | S _, EmptyString => EmptyString
  | S n', String _ s' => drop n' s'
  end.

(** The slice expression [s[lo:]]; out of range it is a run-time panic, which
    is [None] here. *)
Definition slice_from (s : string) (lo : Z) : option string :=
  if ((0 <=? lo)%Z && (lo <=? len s)%Z)%bool
  then Some (drop (Z.to_nat lo) s)
  else None.

(** The slice expression [s[:hi]]. *)
Definition slice_to (s : string) (hi : Z) : option string :=
  if ((0 <=? hi)%Z && (hi <=? len s)%Z)%bool
  then Some (String.substring 0 (Z.to_nat hi) s)
  else None.

(** The index expression [s[i]]. *)
Definition byte_at (s : string) (i : Z) : option ascii :=
  if (0 <=? i)%Z then String.get (Z.to_nat i) s else None.

(** The [%d] verb on an [int]. *)
Definition itoa (n : Z) : string := NilZero.string_of_int (Z.to_int n).

(** ** Severities

    The code handles levels as strings; [Severity] names the five valid ones
    and [rank] is their order. *)

Inductive Severity : Type := INFO | WARN | ERROR | FATAL | PANIC.

Definition level_name (l : Severity) : string :=
  match l with
  | INFO => "INFO"
  | WARN => "WARN"
  | ERROR => "ERROR"
  | FATAL => "FATAL"
  | PANIC => "PANIC"
  end.

Definition rank (l : Severity) : nat :=
  match l with
  | INFO => 0
  | WARN => 1
  | ERROR => 2
  | FATAL => 3
  | PANIC => 4
  end.

Definition severity_of_string (s : string) : option Severity :=
  if s =? "INFO" then Some INFO
  else if s =? "WARN" then Some WARN
  else if s =? "ERROR" then Some ERROR
  else if s =? "FATAL" then Some FATAL
  else if s =? "PANIC" then Some PANIC
  else None.

(** A [case "A", "B", ...:] clause of a [switch] on a string. *)
Definition case_of (s : string) (alternatives : list string) : bool :=
  existsb (String.eqb s) alternatives.

(** ** The world *)

Inductive Writer : Type := os_Stderr | os_Stdout.

(** Error values, by the call that builds them. [fmt_Errorf] keeps its format
    and its one argument; [runtime_error] is a panic raised by the run time
    (a slice or index out of range). *)
Inductive error : Type :=
| errors_New (text : string)
| fmt_Errorf (format : string) (arg : string)
| runtime_error (text : string).

Record world : Type := mkWorld {
  loggerLevel : string;        (* [*loggerLevel], the flag -logger.level *)
  loggerOutput : string;       (* [*loggerOutput], the flag -logger.output *)
  mu : bool;                   (* [true] when the mutex is held *)
  output : Writer;             (* the package variable [output] *)
  stderr : list string;        (* what was written to os.Stderr, one entry per write *)
  stdout : list string         (* what was written to os.Stdout *)
}.

(** The package variables as the declarations initialise them, for given
    flag values. *)
Definition initial_world (level selector : string) : world :=
  mkWorld level selector false os_Stderr [] [].

(** The flags at their default values. *)
Definition default_world : world := initial_world "INFO" "stderr".

(** What a call observes of its surroundings: the clock, read through
    [time.Now().In(timezone).Format(layout)], and [runtime.Caller], which
    maps a number of frames to skip to [(file, line, ok)]. *)
Record runtime : Type := mkRuntime {
  time_Now : string;
  runtime_Caller : nat -> string * Z * bool
}.

Inductive outcome (A : Type) : Type :=
| Ret (a : A)            (* the call returns *)
| Panic (e : error)      (* the call panics; the stack unwinds *)
| Exit (code : Z)        (* os.Exit, or a fatal error of the run time *)
| Block.                 (* the call waits for the mutex for ever *)

Arguments Ret {A} a.
Arguments Panic {A} e.
Arguments Exit {A} code.
Arguments Block {A}.

Definition M (A : Type) : Type := world -> world * outcome A.

Definition ret {A} (a : A) : M A := fun w => (w, Ret a).

Definition bind {A B} (m : M A) (k : A -> M B) : M B :=
  fun w =>
    match m w with
    | (w', Ret a) => k a w'
    | (w', Panic e) => (w', Panic e)
    | (w', Exit c) => (w', Exit c)
    | (w', Block) => (w', Block)
    end.

Notation "x <- m ;; k" := (bind m (fun x => k))
  (at level 61, m at next level, right associativity).
Notation "m ;;; k" := (bind m (fun _ => k))
  (at level 61, right associativity).

Definition gets {A} (f : world -> A) : M A := fun w => (w, Ret (f w)).
Definition panic {A} (e : error) : M A := fun w => (w, Panic e).
Definition os_Exit {A} (code : Z) : M A := fun w => (w, Exit code).

Definition set_output (o : Writer) : M unit :=
  fun w => (mkWorld (loggerLevel w) (loggerOutput w) (mu w) o
                    (stderr w) (stdout w), Ret tt).

Definition set_mu (b : bool) (w : world) : world :=
  mkWorld (loggerLevel w) (loggerOutput w) b (output w) (stderr w) (stdout w).

(** [mu.Lock()]: a single thread of control that finds the mutex held waits
    for ever. *)
Definition mu_Lock : M unit :=
  fun w => if mu w then (w, Block) else (set_mu true w, Ret tt).

(** [mu.Unlock()]: unlocking a free mutex is a fatal error of the run time
    (exit status 2). *)
Definition mu_Unlock : M unit :=
  fun w => if mu w then (set_mu false w, Ret tt) else (w, Exit 2%Z).

(** One [Write] on a stream. *)
Definition write_to (o : Writer) (s : string) (w : world) : world :=
  match o with
  | os_Stderr => mkWorld (loggerLevel w) (loggerOutput w) (mu w) (output w)
                         (stderr w ++ [s]) (stdout w)
  | os_Stdout => mkWorld (loggerLevel w) (loggerOutput w) (mu w) (output w)
                         (stderr w) (stdout w ++ [s])
  end.

(** [fmt.Fprint(output, s)]. *)
Definition fmt_Fprint_output (s : string) : M unit :=
  fun w => (write_to (output w) s w, Ret tt).

(** The number of writes made so far, on both streams. *)
Definition writes (w : world) : nat :=
  List.length (stderr w) + List.length (stdout w).

(** ** The package *)

Definition programRootPath : string :=
  "/webCrawler/".
Definition programRootPathLength : Z := len programRootPath.

Definition level_error_format : string :=
  "FATAL: unsupported `-loggerLevel` value: %q; supported values are: INFO, WARN, ERROR, FATAL, PANIC".
Definition output_error_format : string :=
  "FATAL: unsupported `loggerOutput` value: %q; supported values are: stderr, stdout".

Definition validateLoggerLevel : M unit :=
  level <- gets loggerLevel ;;
  if case_of level ["INFO"; "WARN"; "ERROR"; "FATAL"; "PANIC"] then ret tt
  else panic (fmt_Errorf level_error_format level).

Definition setLoggerOutput : M unit :=
  selector <- gets loggerOutput ;;
  if case_of selector ["stderr"] then set_output os_Stderr
  else if case_of selector ["stdout"] then set_output os_Stdout
  else panic (fmt_Errorf output_error_format selector).

Definition Initialization : M unit :=
  validateLoggerLevel ;;; setLoggerOutput.

Definition shouldSkipLog (level : string) : M bool :=
  minimum <- gets loggerLevel ;;
  if case_of minimum ["WARN"] then
    if case_of level ["WARN"; "ERROR"; "FATAL"; "PANIC"] then ret false
    else ret true
  else if case_of minimum ["ERROR"] then
    if case_of level ["ERROR"; "FATAL"; "PANIC"] then ret false
    else ret true
  else if case_of minimum ["FATAL"] then
    if case_of level ["FATAL"; "PANIC"] then ret false
    else ret true
  else if case_of minimum ["PANIC"] then
    ret (negb (level =? "PANIC"))
  else ret false.

(** The loop that drops trailing newlines,
    [for len(msg) > 0 && msg[len(msg)-1] == '\n' { msg = msg[:len(msg)-1] }],
    unrolled [fuel] times. Indexing and slicing stay inside the bounds the
    guard checks; the [None] branches are the run-time panics of Go. *)
Fixpoint trim_loop (fuel : nat) (msg : string) : option string :=
  match fuel with
  | O => Some msg
  | S fuel' =>
      if (0 <? len msg)%Z then
        match byte_at msg (len msg - 1) with
        | Some c =>
            if Ascii.eqb c newline then
              match slice_to msg (len msg - 1) with
              | Some msg' => trim_loop fuel' msg'
              | None => None
              end
            else Some msg
        | None => None
        end
      else Some msg
  end.

(** Every turn of the loop shortens [msg], so [length msg] turns are enough;
    one more makes the last test of the guard. *)
Definition trim_newlines (msg : string) : option string :=
  trim_loop (S (String.length msg)) msg.

(** Lines 94 to 98: the caller's file and line, or the placeholder. *)
Definition caller_location (rt : runtime) (skipframes : nat) : string * Z :=
  let '(file, line, ok) := runtime_Caller rt skipframes in
  if negb ok then ("???", 0%Z) else (file, line).

(** Lines 100 to 103: the path after the first root marker, when there is
    one. *)
Definition strip_root (file : string) : option string :=
  let n := strings_Index file programRootPath in
  if (n >=? 0)%Z then slice_from file (n + programRootPathLength)
  else Some file.

(** [fmt.Sprintf("%s:%d", file, line)]. *)
Definition location_of (file : string) (line : Z) : string :=
  file ++ ":" ++ itoa line.

(** [fmt.Sprintf("%s\t%s\t%s\t%s\n", timestamp, level, location, msg)]. *)
Definition render (timestamp level location msg : string) : string :=
  timestamp ++ str tab ++ level ++ str tab ++ location ++ str tab
            ++ msg ++ str newline.

(** A run-time panic where Go would raise one. *)
Definition in_range {A} (o : option A) : M A :=
  match o with
  | Some a => ret a
  | None => panic (runtime_error "slice bounds out of range")
  end.

Definition logMessage (rt : runtime) (level msg : string) (skipframes : nat)
  : M unit :=
  let timestamp := time_Now rt in
  let '(file, line) := caller_location rt skipframes in
  file <- in_range (strip_root file) ;;
  let location := location_of file line in
  msg <- in_range (trim_newlines msg) ;;
  let logMsg := render timestamp level location msg in
  mu_Lock ;;;
  fmt_Fprint_output logMsg ;;;
  mu_Unlock ;;;
  if case_of level ["PANIC"] then panic (errors_New msg)
  else if case_of level ["FATAL"] then os_Exit (-1)%Z
  else ret tt.

Section Logger.

(** The arguments of a call are [interface{}] values, and [fmt.Sprintf] on
    a format chosen by the caller is the library's business: both are left
    open. [fmt.Sprintf] returns for every input. *)
Variable any : Type.
Variable fmt_Sprintf : string -> list any -> string.

Definition formatLogMessage (format : string) (args : list any) : string :=
  fmt_Sprintf format args.

Definition logLevel (rt : runtime) (level format : string) (args : list any)
  : M unit :=
  skip <- shouldSkipLog level ;;
  if skip then ret tt
  else
    let msg := formatLogMessage format args in
    logMessage rt level msg 3.

Definition Infof rt format args := logLevel rt "INFO" format args.
Definition Warnf rt format args := logLevel rt "WARN" format args.
Definition Errorf rt format args := logLevel rt "ERROR" format args.
Definition Fatalf rt format args := logLevel rt "FATAL" format args.
Definition Panicf rt format args := logLevel rt "PANIC" format args.

End Logger.

Arguments logLevel {any} fmt_Sprintf rt level format args.
Arguments Infof {any} fmt_Sprintf rt format args.
Arguments Warnf {any} fmt_Sprintf rt format args.
Arguments Errorf {any} fmt_Sprintf rt format args.
Arguments Fatalf {any} fmt_Sprintf rt format args.
Arguments Panicf {any} fmt_Sprintf rt format args.

(** ** Notions the statements use *)

(** The last byte of a string, if it has one. *)
Fixpoint last_byte (s : string) : option ascii :=
  match s with
  | EmptyString => None
  | String c EmptyString => Some c
  | String _ s' => last_byte s'
  end.

(** [strings.TrimRight(s, "\n")] by recursion on the string: what the loop is
    meant to compute. *)
Fixpoint TrimRight_newline (s : string) : string :=
  match s with
  | EmptyString => EmptyString
  | String c s' =>
      match TrimRight_newline s' with
      | EmptyString => if Ascii.eqb c newline then EmptyString else str c
      | r => String c r
      end
  end.

(** [sub] occurs in [s] right after [pre], and nowhere before. *)
Definition first_occurrence (sub pre s : string) : Prop :=
  (exists post, s = pre ++ sub ++ post) /\
  (forall pre' post', s = pre' ++ sub ++ post' ->
                      String.length pre <= String.length pre').

Definition contains (s sub : string) : Prop :=
  exists pre post, s = pre ++ sub ++ post.

(** The file name a line shows for a caller's file. *)
Definition shown_path (file : string) : string :=
  match strip_root file with
  | Some shown => shown
  | None => file
  end.

(** The location field of a call made [skipframes] frames up. *)
Definition call_site (rt : runtime) (skipframes : nat) : string :=
  let '(file, line) := caller_location rt skipframes in
  location_of (shown_path file) line.

(** How [logMessage] ends once the line is written: the [switch] on lines
    117 to 122. *)
Definition after_write (level msg : string) : outcome unit :=
  if case_of level ["PANIC"] then Panic (errors_New msg)
  else if case_of level ["FATAL"] then Exit (-1)%Z
  else Ret tt.

(** The decision [shouldSkipLog] returns. *)
Definition skip_decision (level : string) (w : world) : bool :=
  match snd (shouldSkipLog level w) with
  | Ret b => b
  | _ => false
  end.

(** ** Sample inputs *)

Definition sample_runtime : runtime :=
  mkRuntime "2024-01-02T15:04:05.123Z"
            (fun _ => ("/home/u/webCrawler/pkg/file.go", 42%Z, true)).

(** A formatter that knows no verb: it returns the format. *)
Definition plain_Sprintf (format : string) (_ : list unit) : string := format.

Definition marked_runtime : runtime :=
  mkRuntime "2024-01-02T15:04:05.123Z"
            (fun _ => ("/x/y/webCrawler/pkg/file.go", 7%Z, true)).

Definition unmarked_runtime : runtime :=
  mkRuntime "2024-01-02T15:04:05.123Z"
            (fun _ => ("/go/src/main.go", 12%Z, true)).

(** * Concurrent callers

    Lines 112 to 122 of [logMessage], run by several goroutines at once. A
    goroutine has rendered its line and stands before [mu.Lock()]; from there
    it takes the mutex, writes its line on the sink one byte at a time (the
    finest grain a writer may have), releases the mutex, and ends as its level
    says. The scheduler picks any goroutine that can move. *)

Module Concurrent.

Inductive pc : Type :=
| AtLock                 (* before [mu.Lock()] *)
| Writing (n : nat)      (* inside [fmt.Fprint], [n] bytes written *)
| AtUnlock               (* before [mu.Unlock()] *)
| AfterUnlock            (* before the [switch level] *)
| Finished.

Record thread : Type := mkThread {
  t_pc : pc;
  t_level : string;
  t_line : string     (* [logMsg] *)
}.

Record pool : Type := mkPool {
  mutex : bool;            (* [mu] is held *)
  sink : string;           (* the bytes [output] has received *)
  halted : bool;           (* the process is gone *)
  threads : list thread
}.

Definition at_pc (q : pc) (t : thread) : thread :=
  mkThread q (t_level t) (t_line t).

(** One move of one goroutine on the shared mutex and sink; the last
    component tells whether the move ends the process. A panic that
    nobody recovers ends it, a recovered one does not: both are allowed. *)
Inductive local_step :
  bool * string -> thread -> bool * string -> thread -> bool -> Prop :=
| ls_lock s t :
    t_pc t = AtLock ->
    local_step (false, s) t (true, s) (at_pc (Writing 0) t) false
| ls_write m s t n c :
    t_pc t = Writing n -> String.get n (t_line t) = Some c ->
    local_step (m, s) t (m, s ++ str c) (at_pc (Writing (S n)) t) false
| ls_written m s t n :
    t_pc t = Writing n -> String.get n (t_line t) = None ->
    local_step (m, s) t (m, s) (at_pc AtUnlock t) false
| ls_unlock s t :
    t_pc t = AtUnlock ->
    local_step (true, s) t (false, s) (at_pc AfterUnlock t) false
| ls_panic m s t h :
    t_pc t = AfterUnlock -> case_of (t_level t) ["PANIC"] = true ->
    local_step (m, s) t (m, s) (at_pc Finished t) h
| ls_exit m s t :
    t_pc t = AfterUnlock -> case_of (t_level t) ["PANIC"] = false ->
    case_of (t_level t) ["FATAL"] = true ->
    local_step (m, s) t (m, s) (at_pc Finished t) true
| ls_return m s t :
    t_pc t = AfterUnlock -> case_of (t_level t) ["PANIC"] = false ->
    case_of (t_level t) ["FATAL"] = false ->
    local_step (m, s) t (m, s) (at_pc Finished t) false.

Inductive step : pool -> pool -> Prop :=
| step_thread m s l1 t l2 m' s' t' h :
    local_step (m, s) t (m', s') t' h ->
    step (mkPool m s false (l1 ++ t :: l2)) (mkPool m' s' h (l1 ++ t' :: l2)).

Inductive reachable (p0 : pool) : pool -> Prop :=
| reach_start : reachable p0 p0
| reach_step p p' : reachable p0 p -> step p p' -> reachable p0 p'.

(** A call that passed the filter: what it observed, its level and its
    formatted message. *)
Record call : Type := mkCall {
  call_rt : runtime;
  call_level : string;
  call_msg : string
}.

(** The line the call renders: a record of four fields. *)
Definition line_of (c : call) : string :=
  render (time_Now (call_rt c)) (call_level c) (call_site (call_rt c) 3)
         (TrimRight_newline (call_msg c)).

Definition spawn (c : call) : thread :=
  mkThread AtLock (call_level c) (line_of c).

(** All callers before the lock, the mutex free, nothing written yet. *)
Definition start (calls : list call) : pool :=
  mkPool false "" false (map spawn calls).

(** The goroutine is between [Lock] and [Unlock]. *)
Definition critical (t : thread) : bool :=
  match t_pc t with
  | Writing _ | AtUnlock => true
  | _ => false
  end.

(** The part of its line a goroutine has written and not finished. *)
Definition in_flight (t : thread) : string :=
  match t_pc t with
  | Writing n => String.substring 0 n (t_line t)
  | _ => ""
  end.

(** The line of a goroutine whose write is complete. *)
Definition whole (t : thread) : list string :=
  match t_pc t with
  | AtUnlock | AfterUnlock | Finished => [t_line t]
  | _ => []
  end.

Definition holders (ts : list thread) : nat :=
  List.length (filter critical ts).

(** The strings of a list, one after the other. *)
Definition join (l : list string) : string :=
  fold_right String.append "" l.

Definition partial (ts : list thread) : string :=
  join (map in_flight ts).

(** The sink holds whole lines, then what the holder of the mutex has
    written of its own line; the mutex is held by one goroutine at most. *)
Definition serialized (p : pool) : Prop :=
  holders (threads p) = (if mutex p then 1 else 0) /\
  exists done : list string,
    Permutation done (flat_map whole (threads p)) /\
    sink p = join done ++ partial (threads p).

End Concurrent.

(** ** Sample pool *)

Definition two_calls : list Concurrent.call :=
  [Concurrent.mkCall sample_runtime "INFO" "first";
   Concurrent.mkCall marked_runtime "WARN" "second"].

(** The first caller is done; the second holds the mutex and has written
    one byte of its line. *)
Definition two_calls_midway : Concurrent.pool :=
  Concurrent.mkPool true
    (render "2024-01-02T15:04:05.123Z" "INFO" "pkg/file.go:42" "first" ++ "2")
    false
    [Concurrent.mkThread Concurrent.Finished "INFO"
       (render "2024-01-02T15:04:05.123Z" "INFO" "pkg/file.go:42" "first");
     Concurrent.mkThread (Concurrent.Writing 1) "WARN"
       (render "2024-01-02T15:04:05.123Z" "WARN" "pkg/file.go:7" "second")].

(** ** Streams and schedules *)

(** What a stream has received. *)
Definition stream (o : Writer) (w : world) : list string :=
  match o with
  | os_Stderr => stderr w
  | os_Stdout => stdout w
  end.

Definition other_stream (o : Writer) : Writer :=
  match o with
  | os_Stderr => os_Stdout
  | os_Stdout => os_Stderr
  end.

(** The moves a goroutine still has to make: the lock, one per byte left,
    the end of the write, the unlock, the [switch]. *)
Definition remaining (t : Concurrent.thread) : nat :=
  match Concurrent.t_pc t with
  | Concurrent.AtLock => String.length (Concurrent.t_line t) + 4
  | Concurrent.Writing n => (String.length (Concurrent.t_line t) - n) + 3
  | Concurrent.AtUnlock => 2
  | Concurrent.AfterUnlock => 1
  | Concurrent.Finished => 0
  end.

Definition work (p : Concurrent.pool) : nat :=
  list_sum (map remaining (Concurrent.threads p)).

(** A schedule of [n] moves. *)
Inductive run : nat -> Concurrent.pool -> Concurrent.pool -> Prop :=
| run_done p : run 0 p p
| run_move n p q r : Concurrent.step p q -> run n q r -> run (S n) p r.

(** The pool of [two_calls] once the first caller has taken the mutex. *)
Definition two_calls_locked : Concurrent.pool :=
  Concurrent.mkPool true "" false
    [Concurrent.mkThread (Concurrent.Writing 0) "INFO"
       (render "2024-01-02T15:04:05.123Z" "INFO" "pkg/file.go:42" "first");
     Concurrent.mkThread Concurrent.AtLock "WARN"
       (render "2024-01-02T15:04:05.123Z" "WARN" "pkg/file.go:7" "second")].

(** A clock and a stack that cannot name the caller. *)
Definition lost_runtime : runtime :=
  mkRuntime "2024-01-02T15:04:05.123Z" (fun _ => ("", 0%Z, false)).

(** ** Reading the sink back *)

(** [strings.Split] on a one-byte separator. *)
Fixpoint split_on (sep : ascii) (s : string) : list string :=
  match s with
  | EmptyString => [EmptyString]
  | String c s' =>
      if Ascii.eqb c sep then EmptyString :: split_on sep s'
      else match split_on sep s' with
           | h :: t => String c h :: t
           | [] => [str c]
           end
  end.

(** The lines a reader captures from a sink: the texts that a newline ends.
    What follows the last newline is not a line yet. *)
Definition captured_lines (sink : string) : list string :=
  removelast (split_on newline sink).

(** The fields of a captured line. *)
Definition fields (line : string) : list string := split_on tab line.

Fixpoint has_byte (c : ascii) (s : string) : bool :=
  match s with
  | EmptyString => false
  | String x s' => Ascii.eqb x c || has_byte c s'
  end.

(** A text with no tab and no newline in it. *)
Definition plain (s : string) : bool :=
  negb (has_byte tab s) && negb (has_byte newline s).

(** The four fields of the record a call renders. *)
Definition record_of (c : Concurrent.call) : list string :=
  [time_Now (Concurrent.call_rt c);
   Concurrent.call_level c;
   call_site (Concurrent.call_rt c) 3;
   TrimRight_newline (Concurrent.call_msg c)].

Definition plain_call (c : Concurrent.call) : bool := forallb plain (record_of c).

(** The line of a call without the newline that ends it. *)
Definition body_of (c : Concurrent.call) : string :=
  time_Now (Concurrent.call_rt c) ++ str tab ++ Concurrent.call_level c
    ++ str tab ++ call_site (Concurrent.call_rt c) 3 ++ str tab
    ++ TrimRight_newline (Concurrent.call_msg c).

(** One caller whose message has a newline inside. *)
Definition split_call : Concurrent.call :=
  Concurrent.mkCall sample_runtime "INFO" ("a" ++ str newline ++ "b").

(** That caller, done. *)
Definition split_call_done : Concurrent.pool :=
  Concurrent.mkPool false (Concurrent.line_of split_call) false
    [Concurrent.mkThread Concurrent.Finished "INFO"
       (Concurrent.line_of split_call)].

(** The pool of [two_calls] when the first caller is done and the second has
    not started. *)
Definition two_calls_first_done : Concurrent.pool :=
  Concurrent.mkPool false
    (render "2024-01-02T15:04:05.123Z" "INFO" "pkg/file.go:42" "first")
    false
    [Concurrent.mkThread Concurrent.Finished "INFO"
       (render "2024-01-02T15:04:05.123Z" "INFO" "pkg/file.go:42" "first");
     Concurrent.mkThread Concurrent.AtLock "WARN"
       (render "2024-01-02T15:04:05.123Z" "WARN" "pkg/file.go:7" "second")].

(** * Facts *)

(** ** Sample runs *)

Example run_warn_emits :
  Warnf plain_Sprintf sample_runtime ("x=5" ++ newlines 2) []
        (initial_world "WARN" "stdout")
  = (mkWorld "WARN" "stdout" false os_Stderr
       ["2024-01-02T15:04:05.123Z" ++ str tab ++ "WARN" ++ str tab
          ++ "pkg/file.go:42" ++ str tab ++ "x=5" ++ str newline] [],
     Ret tt).
Proof. reflexivity. Qed.

Example run_info_skipped :
  Infof plain_Sprintf sample_runtime "ignored" [] (initial_world "WARN" "stdout")
  = (initial_world "WARN" "stdout", Ret tt).
Proof. reflexivity. Qed.

Example run_fatal_under_panic :
  Fatalf plain_Sprintf sample_runtime "disk full" [] (initial_world "PANIC" "stderr")
  = (initial_world "PANIC" "stderr", Ret tt).
Proof. reflexivity. Qed.

(** ** Strings: appending, the last byte, prefixes *)

Lemma strlen_app (a b : string) :
  String.length (a ++ b) = String.length a + String.length b.
Proof. induction a as [|c a IH]; simpl; [reflexivity | now rewrite IH]. Qed.

Lemma app_assoc_str (a b c : string) : (a ++ b) ++ c = a ++ (b ++ c).
Proof. induction a as [|x a IH]; simpl; [reflexivity | now rewrite IH]. Qed.

Lemma app_empty_r (a : string) : a ++ "" = a.
Proof. induction a as [|x a IH]; simpl; [reflexivity | now rewrite IH]. Qed.

Lemma get_snoc (s : string) (c : ascii) :
  String.get (String.length s) (s ++ str c) = Some c.
Proof. induction s as [|x s IH]; simpl; [reflexivity | exact IH]. Qed.

Lemma substring_snoc (s t : string) :
  String.substring 0 (String.length s) (s ++ t) = s.
Proof.
  induction s as [|x s IH]; simpl.
  - destruct t; reflexivity.
  - now rewrite IH.
Qed.

Lemma newlines_snoc (k : nat) : newlines (S k) = newlines k ++ str newline.
Proof. induction k as [|k IH]; [reflexivity |]. simpl in *. now rewrite <- IH. Qed.

Lemma length_newlines (k : nat) : String.length (newlines k) = k.
Proof. induction k as [|k IH]; simpl; [reflexivity | now rewrite IH]. Qed.

Lemma last_byte_snoc (s : string) (c : ascii) : last_byte (s ++ str c) = Some c.
Proof.
  induction s as [|x s IH]; [reflexivity |].
  simpl. destruct (s ++ str c) eqn:E; [| exact IH].
  destruct s; discriminate.
Qed.

Lemma last_byte_cons (c : ascii) (s : string) :
  s <> "" -> last_byte (String c s) = last_byte s.
Proof. destruct s; [congruence | reflexivity]. Qed.

(** A string is empty or has a last byte. *)
Lemma snoc_view (s : string) :
  s = "" \/ exists t c, s = t ++ str c.
Proof.
  induction s as [|x s IH]; [now left | right].
  destruct IH as [-> | (t & c & ->)].
  - now exists "", x.
  - now exists (String x t), c.
Qed.

(** ** The trimming loop *)

(** One turn of the loop on a message that ends in a newline. *)
Lemma trim_loop_newline (fuel : nat) (s : string) :
  trim_loop (S fuel) (s ++ str newline) = trim_loop fuel s.
Proof.
  cbn [trim_loop]. unfold byte_at, slice_to, len.
  rewrite strlen_app. cbn [String.length str].
  replace (Z.of_nat (String.length s + 1) - 1)%Z
    with (Z.of_nat (String.length s)) by lia.
  destruct (Z.ltb_spec 0 (Z.of_nat (String.length s + 1))); [| lia].
  destruct (Z.leb_spec 0 (Z.of_nat (String.length s))); [| lia].
  rewrite Nat2Z.id, get_snoc, Ascii.eqb_refl.
  destruct (Z.leb_spec (Z.of_nat (String.length s))
                       (Z.of_nat (String.length s + 1))); [| lia].
  cbn [andb]. now rewrite substring_snoc.
Qed.

(** The loop stops on a message that does not end in a newline. *)
Lemma trim_loop_stop (fuel : nat) (s : string) :
  last_byte s <> Some newline -> trim_loop fuel s = Some s.
Proof.
  intros H. destruct fuel as [|fuel]; [reflexivity |].
  destruct (snoc_view s) as [-> | (t & c & ->)]; [reflexivity |].
  rewrite last_byte_snoc in H.
  cbn [trim_loop]. unfold byte_at, len.
  rewrite strlen_app. cbn [String.length str].
  replace (Z.of_nat (String.length t + 1) - 1)%Z
    with (Z.of_nat (String.length t)) by lia.
  destruct (Z.ltb_spec 0 (Z.of_nat (String.length t + 1))); [| lia].
  destruct (Z.leb_spec 0 (Z.of_nat (String.length t))); [| lia].
  rewrite Nat2Z.id, get_snoc.
  destruct (Ascii.eqb_spec c newline); [congruence | reflexivity].
Qed.

Lemma trim_loop_body (k fuel : nat) (body : string) :
  last_byte body <> Some newline -> k <= fuel ->
  trim_loop fuel (body ++ newlines k) = Some body.
Proof.
  intros H. revert fuel. induction k as [|k IH]; intros fuel Hk.
  - cbn [newlines]. rewrite app_empty_r. now apply trim_loop_stop.
  - destruct fuel as [|fuel]; [lia |].
    rewrite newlines_snoc, <- app_assoc_str, trim_loop_newline.
    apply IH. lia.
Qed.

Lemma TrimRight_newline_split (s : string) :
  exists k, s = TrimRight_newline s ++ newlines k.
Proof.
  induction s as [|c s (k & IH)]; [now exists 0 |].
  cbn [TrimRight_newline].
  destruct (TrimRight_newline s) as [|d r] eqn:E.
  - destruct (Ascii.eqb_spec c newline) as [-> | _].
    + exists (S k). simpl in *. now rewrite <- IH.
    + exists k. simpl in *. now rewrite <- IH.
  - exists k. rewrite IH at 1. reflexivity.
Qed.

Lemma TrimRight_newline_clean (s : string) :
  last_byte (TrimRight_newline s) <> Some newline.
Proof.
  induction s as [|c s IH]; [discriminate |].
  cbn [TrimRight_newline].
  destruct (TrimRight_newline s) as [|d r] eqn:E.
  - destruct (Ascii.eqb_spec c newline); simpl; congruence.
  - rewrite last_byte_cons by discriminate. exact IH.
Qed.

Lemma TrimRight_newline_newlines (k : nat) : TrimRight_newline (newlines k) = "".
Proof.
  induction k as [|k IH]; [reflexivity |].
  cbn [newlines TrimRight_newline]. rewrite IH. reflexivity.
Qed.

Lemma TrimRight_newline_body (body : string) (k : nat) :
  last_byte body <> Some newline ->
  TrimRight_newline (body ++ newlines k) = body.
Proof.
  induction body as [|c b IH]; intros H.
  - apply TrimRight_newline_newlines.
  - cbn [append TrimRight_newline].
    destruct b as [|d b].
    + cbn [append]. rewrite TrimRight_newline_newlines.
      destruct (Ascii.eqb_spec c newline) as [-> | _]; [| reflexivity].
      now contradiction H.
    + rewrite IH; [reflexivity |].
      now rewrite last_byte_cons in H by discriminate.
Qed.

(** The loop computes [TrimRight_newline], and never leaves the bounds of the
    string. *)
Lemma trim_loop_correct (fuel : nat) (msg : string) :
  String.length msg <= fuel ->
  trim_loop fuel msg = Some (TrimRight_newline msg).
Proof.
  intros Hf. destruct (TrimRight_newline_split msg) as (k & E).
  rewrite E at 1. apply trim_loop_body.
  - apply TrimRight_newline_clean.
  - apply (f_equal String.length) in E.
    rewrite strlen_app, length_newlines in E. lia.
Qed.

Lemma trim_newlines_correct (msg : string) :
  trim_newlines msg = Some (TrimRight_newline msg).
Proof. apply trim_loop_correct. lia. Qed.

(** ** Searching a string *)

Lemma has_prefix_app (p rest : string) : has_prefix (p ++ rest) p = true.
Proof.
  induction p as [|c p IH]; [reflexivity |].
  simpl. now rewrite Ascii.eqb_refl, IH.
Qed.

Lemma has_prefix_inv (s p : string) :
  has_prefix s p = true -> exists rest, s = p ++ rest.
Proof.
  revert s. induction p as [|c p IH]; intros s H.
  - now exists s.
  - destruct s as [|d s]; [discriminate |].
    simpl in H. apply andb_prop in H as [Hc Hp].
    apply Ascii.eqb_eq in Hc as ->.
    destruct (IH _ Hp) as (rest & ->). now exists rest.
Qed.

Lemma drop_app (a b : string) : drop (String.length a) (a ++ b) = b.
Proof. induction a as [|c a IH]; simpl; [now destruct b | exact IH]. Qed.

Lemma no_prefix_no_head (s sub pre post : string) :
  has_prefix s sub = false -> s = pre ++ sub ++ post -> pre <> "".
Proof.
  intros H -> ->. cbn [append] in H. now rewrite has_prefix_app in H.
Qed.

(** What [strings.Index] returns: -1 on a string without [sub], else the
    length of what comes before the first occurrence. *)
Lemma index_from_spec (s sub : string) (i : Z) :
  (~ contains s sub /\ index_from i s sub = (-1)%Z) \/
  (exists pre post,
      s = pre ++ sub ++ post /\ first_occurrence sub pre s /\
      index_from i s sub = (i + Z.of_nat (String.length pre))%Z).
Proof.
  revert i. induction s as [|c s IH]; intros i.
  - cbn [index_from]. destruct (has_prefix "" sub) eqn:P.
    + right. destruct (has_prefix_inv _ _ P) as (rest & E).
      exists "", rest. cbn [append String.length].
      repeat split; [exact E | now exists rest | intros; simpl; lia | lia].
    + left. split; [| reflexivity].
      intros (pre & post & E).
      pose proof (no_prefix_no_head _ _ _ _ P E) as N.
      destruct pre; [congruence | discriminate].
  - cbn [index_from]. destruct (has_prefix (String c s) sub) eqn:P.
    + right. destruct (has_prefix_inv _ _ P) as (rest & E).
      exists "", rest. cbn [append String.length].
      repeat split; [exact E | now exists rest | intros; simpl; lia | lia].
    + destruct (IH (i + 1)%Z) as [(A & E) | (pre & post & E & (_ & Hmin) & R)].
      * left. split; [| exact E].
        intros (pre & post & E').
        pose proof (no_prefix_no_head _ _ _ _ P E') as N.
        destruct pre as [|d pre]; [congruence |].
        injection E' as _ E'. apply A. now exists pre, post.
      * right. exists (String c pre), post.
        cbn [append String.length]. repeat split.
        -- now f_equal.
        -- exists post. simpl. now f_equal.
        -- intros pre' post' E'.
           pose proof (no_prefix_no_head _ _ _ _ P E') as N.
           destruct pre' as [|d pre']; [congruence |].
           injection E' as _ E'. simpl.
           specialize (Hmin _ _ E'). lia.
        -- rewrite R. lia.
Qed.

(** Two first occurrences are the same one. *)
Lemma app_inj_length (a b c d : string) :
  a ++ b = c ++ d -> String.length a = String.length c -> a = c /\ b = d.
Proof.
  revert c. induction a as [|x a IH]; intros [|y c] E L; try discriminate.
  - now split.
  - simpl in *. injection E as -> E. injection L as L.
    destruct (IH _ E L) as [-> ->]. now split.
Qed.

Lemma first_occurrence_unique (sub pre post pre' s : string) :
  first_occurrence sub pre s -> s = pre ++ sub ++ post ->
  first_occurrence sub pre' s ->
  exists post', s = pre' ++ sub ++ post' /\ pre' = pre /\ post' = post.
Proof.
  intros (_ & Hmin) E ((post' & E') & Hmin').
  exists post'. split; [exact E' |].
  pose proof (Hmin _ _ E') as L1. pose proof (Hmin' _ _ E) as L2.
  assert (L : String.length pre' = String.length pre) by lia.
  rewrite E in E'.
  destruct (app_inj_length _ _ _ _ (eq_sym E') L) as [-> E2].
  split; [reflexivity |].
  destruct (app_inj_length sub post' sub post E2 eq_refl) as [_ ->].
  reflexivity.
Qed.

(** The path with the root stripped: after the first marker when there is
    one, whole when there is none; the slice never leaves the string. *)
Lemma strip_root_found (pre post : string) :
  first_occurrence programRootPath pre (pre ++ programRootPath ++ post) ->
  strip_root (pre ++ programRootPath ++ post) = Some post.
Proof.
  intros F. unfold strip_root, strings_Index.
  destruct (index_from_spec (pre ++ programRootPath ++ post) programRootPath 0)
    as [(A & _) | (pre' & post' & E & F' & R)].
  - exfalso. apply A. now exists pre, post.
  - destruct (first_occurrence_unique _ _ post _ _ F eq_refl F')
      as (p & _ & -> & _).
    rewrite R. unfold slice_from, programRootPathLength, len.
    rewrite !strlen_app.
    destruct (Z.geb_spec (0 + Z.of_nat (String.length pre)) 0); [| lia].
    match goal with |- (if ?a && ?b then _ else _) = _ =>
      replace a with true by (symmetry; apply Z.leb_le; lia);
      replace b with true by (symmetry; apply Z.leb_le; lia)
    end.
    cbn [andb]. f_equal.
    replace (Z.to_nat (0 + Z.of_nat (String.length pre)
                       + Z.of_nat (String.length programRootPath)))
      with (String.length (pre ++ programRootPath))
      by (rewrite strlen_app; lia).
    rewrite <- app_assoc_str. apply drop_app.
Qed.

Lemma strip_root_absent (file : string) :
  ~ contains file programRootPath -> strip_root file = Some file.
Proof.
  intros A. unfold strip_root, strings_Index.
  destruct (index_from_spec file programRootPath 0)
    as [(_ & ->) | (pre & post & E & _)]; [reflexivity |].
  exfalso. apply A. now exists pre, post.
Qed.

Lemma strip_root_total (file : string) : exists shown, strip_root file = Some shown.
Proof.
  destruct (index_from_spec file programRootPath 0)
    as [(A & _) | (pre & post & E & F & _)].
  - exists file. now apply strip_root_absent.
  - exists post. subst file. now apply strip_root_found.
Qed.

(** [strings.Index] decides whether the string contains [sub]. *)
Lemma index_absent (s sub : string) :
  strings_Index s sub = (-1)%Z -> ~ contains s sub.
Proof.
  unfold strings_Index. intros E.
  destruct (index_from_spec s sub 0) as [(A & _) | (pre & post & _ & _ & R)];
    [exact A | lia].
Qed.

(** ** Running the package *)

Lemma shouldSkipLog_run (level : string) (w : world) :
  shouldSkipLog level w = (w, Ret (skip_decision level w)).
Proof.
  unfold skip_decision, shouldSkipLog, bind, gets, ret.
  repeat match goal with
         | |- context [if ?b then _ else _] => destruct b
         end; reflexivity.
Qed.

Lemma unlock_write_lock (o : Writer) (line : string) (w : world) :
  mu w = false ->
  set_mu false (write_to o line (set_mu true w)) = write_to o line w.
Proof. destruct w, o; simpl; intros ->; reflexivity. Qed.

(** With the mutex free, [logMessage] makes one write on the sink, releases
    the mutex, and ends as its level says. *)
Lemma logMessage_run (rt : runtime) (level msg : string) (k : nat) (w : world) :
  mu w = false ->
  logMessage rt level msg k w
  = (write_to (output w)
       (render (time_Now rt) level (call_site rt k) (TrimRight_newline msg)) w,
     after_write level (TrimRight_newline msg)).
Proof.
  intros Hmu. unfold logMessage, call_site, shown_path, after_write.
  destruct (caller_location rt k) as (file, line).
  destruct (strip_root_total file) as (shown & ->).
  rewrite trim_newlines_correct.
  unfold in_range, bind, ret, mu_Lock, fmt_Fprint_output, mu_Unlock.
  rewrite Hmu. cbn [mu set_mu output write_to].
  assert (E : mu (write_to (output w) (render (time_Now rt) level
                     (location_of shown line) (TrimRight_newline msg))
                     (set_mu true w)) = true)
    by (destruct (output w); reflexivity).
  change (output (set_mu true w)) with (output w).
  rewrite E, unlock_write_lock by exact Hmu.
  unfold panic, os_Exit.
  destruct (case_of level ["PANIC"]); [reflexivity |].
  destruct (case_of level ["FATAL"]); reflexivity.
Qed.

(** With the mutex held by someone else, a single thread waits. *)
Lemma logMessage_blocks (rt : runtime) (level msg : string) (k : nat) (w : world) :
  mu w = true -> logMessage rt level msg k w = (w, Block).
Proof.
  intros Hmu. unfold logMessage.
  destruct (caller_location rt k) as (file, line).
  destruct (strip_root_total file) as (shown & ->).
  rewrite trim_newlines_correct.
  unfold in_range, bind, ret, mu_Lock. now rewrite Hmu.
Qed.

Lemma logLevel_run {any} (fmt_Sprintf : string -> list any -> string)
      (rt : runtime) (level format : string) (args : list any) (w : world) :
  logLevel fmt_Sprintf rt level format args w
  = if skip_decision level w then (w, Ret tt)
    else logMessage rt level (fmt_Sprintf format args) 3 w.
Proof.
  unfold logLevel, bind at 1. rewrite shouldSkipLog_run.
  destruct (skip_decision level w); reflexivity.
Qed.

Lemma writes_write_to (o : Writer) (line : string) (w : world) :
  writes (write_to o line w) = S (writes w).
Proof.
  destruct o; unfold writes; simpl; rewrite List.length_app; simpl; lia.
Qed.

Lemma severity_of_string_name (s : string) (l : Severity) :
  severity_of_string s = Some l -> s = level_name l.
Proof.
  unfold severity_of_string.
  repeat match goal with
         | |- context [if (?a =? ?b) then _ else _] =>
             destruct (String.eqb_spec a b); [subst; intros [= <-]; reflexivity |]
         end.
  discriminate.
Qed.

Lemma severity_of_string_level_name (l : Severity) :
  severity_of_string (level_name l) = Some l.
Proof. destruct l; reflexivity. Qed.

(** The decision on the five levels is the comparison of ranks. *)
Lemma skip_decision_rank (L Mi : Severity) (w : world) :
  loggerLevel w = level_name Mi ->
  skip_decision (level_name L) w = negb (rank Mi <=? rank L)%nat.
Proof.
  intros E. unfold skip_decision, shouldSkipLog, bind, gets, ret.
  rewrite E. destruct L, Mi; reflexivity.
Qed.

(** A minimum that is none of the five valid names lets every call through. *)
Lemma skip_decision_invalid (level : string) (w : world) :
  severity_of_string (loggerLevel w) = None -> skip_decision level w = false.
Proof.
  unfold severity_of_string, skip_decision, shouldSkipLog, bind, gets, ret,
    case_of, existsb.
  destruct (loggerLevel w =? "INFO"); [discriminate |].
  destruct (loggerLevel w =? "WARN"); [discriminate |].
  destruct (loggerLevel w =? "ERROR"); [discriminate |].
  destruct (loggerLevel w =? "FATAL"); [discriminate |].
  destruct (loggerLevel w =? "PANIC"); [discriminate |].
  reflexivity.
Qed.

Lemma skip_decision_PANIC (w : world) : skip_decision "PANIC" w = false.
Proof.
  unfold skip_decision, shouldSkipLog, bind, gets, ret.
  repeat match goal with
         | |- context [if case_of (loggerLevel w) ?l then _ else _] =>
             destruct (case_of (loggerLevel w) l)
         end; reflexivity.
Qed.

Lemma skip_decision_FATAL (w : world) :
  skip_decision "FATAL" w = (loggerLevel w =? "PANIC").
Proof.
  unfold skip_decision, shouldSkipLog, bind, gets, ret, case_of, existsb.
  destruct (String.eqb_spec (loggerLevel w) "PANIC") as [-> | _];
    [reflexivity |].
  destruct (loggerLevel w =? "WARN"); [reflexivity |].
  destruct (loggerLevel w =? "ERROR"); [reflexivity |].
  destruct (loggerLevel w =? "FATAL"); reflexivity.
Qed.

Lemma last_byte_app (a t : string) :
  t <> "" -> last_byte (a ++ t) = last_byte t.
Proof.
  intros Ht. induction a as [|c a IH]; [reflexivity |].
  cbn [append]. rewrite last_byte_cons; [exact IH |].
  destruct a; [exact Ht | discriminate].
Qed.

(** A rendered line is a body that does not end in a newline, and then one
    newline. *)
Lemma render_one_newline (timestamp level location msg : string) :
  last_byte msg <> Some newline ->
  exists body,
    render timestamp level location msg = body ++ str newline /\
    last_byte body <> Some newline.
Proof.
  intros Hm.
  exists (timestamp ++ str tab ++ level ++ str tab ++ location
                    ++ str tab ++ msg).
  split.
  - unfold render. now rewrite !app_assoc_str.
  - rewrite <- !app_assoc_str. destruct msg as [|c m].
    + rewrite app_empty_r, last_byte_snoc. discriminate.
    + now rewrite last_byte_app by discriminate.
Qed.

(** ** Facts on the concurrent model *)

Module ConcurrentFacts.
Import Concurrent.

Lemma join_app (a b : list string) : join (a ++ b) = join a ++ join b.
Proof.
  induction a as [|x a IH]; [reflexivity |].
  simpl. now rewrite IH, app_assoc_str.
Qed.

Lemma holders_app (a b : list thread) :
  holders (a ++ b) = holders a + holders b.
Proof. unfold holders. now rewrite filter_app, List.length_app. Qed.

Lemma holders_cons (t : thread) (l : list thread) :
  holders (t :: l) = (if critical t then 1 else 0) + holders l.
Proof. unfold holders. simpl. now destruct (critical t). Qed.

Lemma idle_in_flight (t : thread) : critical t = false -> in_flight t = "".
Proof. unfold critical, in_flight. now destruct (t_pc t). Qed.

Lemma no_holder_no_partial (ts : list thread) :
  holders ts = 0 -> partial ts = "".
Proof.
  induction ts as [|t ts IH]; [reflexivity |].
  rewrite holders_cons. intros H.
  destruct (critical t) eqn:C; [discriminate |].
  unfold partial in *. simpl. now rewrite idle_in_flight, IH.
Qed.

Lemma partial_at (l1 l2 : list thread) (t : thread) :
  partial (l1 ++ t :: l2) = partial l1 ++ in_flight t ++ partial l2.
Proof. unfold partial. now rewrite map_app, join_app. Qed.

Lemma whole_at (l1 l2 : list thread) (t : thread) :
  flat_map whole (l1 ++ t :: l2)
  = (flat_map whole l1 ++ whole t ++ flat_map whole l2)%list.
Proof. now rewrite flat_map_app. Qed.

Lemma substring_none (s : string) : String.substring 0 0 s = "".
Proof. now destruct s. Qed.

Lemma substring_next (s : string) (n : nat) (c : ascii) :
  String.get n s = Some c ->
  String.substring 0 (S n) s = String.substring 0 n s ++ str c.
Proof.
  revert n. induction s as [|x s IH]; intros n H; [destruct n; discriminate |].
  destruct n as [|n].
  - simpl in H. injection H as ->. simpl. now destruct s.
  - simpl in H. cbn [String.substring]. rewrite (IH _ H). reflexivity.
Qed.

Lemma substring_all (s : string) (n : nat) :
  String.get n s = None -> String.substring 0 n s = s.
Proof.
  revert n. induction s as [|x s IH]; intros n H; [now destruct n |].
  destruct n as [|n]; [discriminate |].
  simpl in H. cbn [String.substring]. now rewrite (IH _ H).
Qed.

Lemma step_serialized (p p' : pool) :
  step p p' -> serialized p -> serialized p'.
Proof.
  intros St (Hh & done & Hp & Hs).
  destruct St as [m s l1 t l2 m' s' t' h L]. cbn [threads mutex sink] in *.
  rewrite holders_app, holders_cons in Hh.
  unfold serialized. cbn [threads mutex sink].
  rewrite holders_app, holders_cons, !whole_at, !partial_at in *.
  revert Hs.
  inversion L; subst; intros Hs;
    unfold critical, in_flight, whole, at_pc in *;
    cbn [t_pc t_line t_level] in *;
    match goal with E : t_pc t = _ |- _ => rewrite E in * end.
  - (* Lock *)
    split; [lia |]. exists done. split; [exact Hp |].
    now rewrite substring_none.
  - (* one byte *)
    assert (H1 : holders l1 = 0) by (destruct m'; lia).
    assert (H2 : holders l2 = 0) by (destruct m'; lia).
    split; [exact Hh |]. exists done. split; [exact Hp |].
    rewrite Hs, (no_holder_no_partial _ H1), (no_holder_no_partial _ H2).
    match goal with G : String.get _ _ = Some _ |- _ =>
      rewrite (substring_next _ _ _ G) end.
    rewrite !app_empty_r. cbn [append].
    now rewrite app_assoc_str.
  - (* the write is complete *)
    assert (H1 : holders l1 = 0) by (destruct m'; lia).
    assert (H2 : holders l2 = 0) by (destruct m'; lia).
    split; [exact Hh |]. exists (done ++ [t_line t])%list. split.
    + rewrite Permutation_app_comm. cbn [app].
      apply Permutation_cons_app. exact Hp.
    + rewrite Hs, (no_holder_no_partial _ H1), (no_holder_no_partial _ H2).
      match goal with G : String.get _ _ = None |- _ =>
        rewrite (substring_all _ _ G) end.
      rewrite join_app. cbn [join fold_right append].
      now rewrite !app_empty_r.
  - (* Unlock *)
    split; [lia |]. exists done. split; [exact Hp |]. exact Hs.
  - split; [exact Hh |]. exists done. split; [exact Hp |]. exact Hs.
  - split; [exact Hh |]. exists done. split; [exact Hp |]. exact Hs.
  - split; [exact Hh |]. exists done. split; [exact Hp |]. exact Hs.
Qed.

Lemma start_serialized (calls : list call) : serialized (start calls).
Proof.
  unfold serialized, start. cbn [threads mutex sink].
  assert (H : holders (map spawn calls) = 0)
    by (induction calls as [|c l IH]; [reflexivity |];
        simpl; rewrite holders_cons; exact IH).
  split; [exact H |]. exists []. split.
  - clear H. induction calls as [|c l IH]; [apply perm_nil | exact IH].
  - now rewrite (no_holder_no_partial _ H).
Qed.

Lemma reachable_serialized (calls : list call) (p : pool) :
  reachable (start calls) p -> serialized p.
Proof.
  induction 1 as [| p p' _ IH St]; [apply start_serialized |].
  exact (step_serialized _ _ St IH).
Qed.

(** A goroutine keeps its line and its level. *)
Lemma local_step_line (ms ms' : bool * string) (t t' : thread) (h : bool) :
  local_step ms t ms' t' h -> t_line t' = t_line t /\ t_level t' = t_level t.
Proof. destruct 1; now split. Qed.

Lemma reachable_lines (p0 p : pool) :
  reachable p0 p -> map t_line (threads p) = map t_line (threads p0).
Proof.
  induction 1 as [| p p' _ IH St]; [reflexivity |].
  rewrite <- IH. destruct St as [m s l1 t l2 m' s' t' h L].
  cbn [threads]. rewrite !map_app. cbn [map].
  now destruct (local_step_line _ _ _ _ _ L) as [-> _].
Qed.

Lemma start_lines (calls : list call) :
  map t_line (threads (start calls)) = map line_of calls.
Proof. unfold start. cbn [threads]. now rewrite map_map. Qed.

Lemma whole_incl (ts : list thread) :
  incl (flat_map whole ts) (map t_line ts).
Proof.
  induction ts as [|t ts IH]; [easy |].
  cbn [flat_map map]. apply incl_app.
  - unfold whole. destruct (t_pc t); intros x Hx; try contradiction;
      destruct Hx as [<- | []]; now left.
  - now apply incl_tl.
Qed.

Lemma whole_finished (ts : list thread) :
  Forall (fun t => t_pc t = Finished) ts -> flat_map whole ts = map t_line ts.
Proof.
  induction 1 as [|t ts Ht _ IH]; [reflexivity |].
  cbn [flat_map map]. unfold whole at 1. now rewrite Ht, IH.
Qed.

(** What is in flight is nothing, or the written part of one line. *)
Lemma partial_one (ts : list thread) :
  holders ts <= 1 ->
  partial ts = "" \/
  exists t n, In t ts /\ t_pc t = Writing n /\
              partial ts = String.substring 0 n (t_line t).
Proof.
  induction ts as [|t ts IH]; [now left |].
  rewrite holders_cons. intros H.
  destruct (critical t) eqn:C.
  - assert (H0 : holders ts = 0) by lia.
    pose proof (no_holder_no_partial _ H0) as P.
    unfold partial in *. cbn [map join fold_right]. fold (join (map in_flight ts)).
    rewrite P, app_empty_r. unfold in_flight.
    destruct (t_pc t) eqn:E; try now left.
    right. exists t, n. repeat split; [now left | exact E].
  - destruct IH as [P | (t0 & n & I & E & P)]; [lia | |];
      unfold partial in *; cbn [map join fold_right];
      fold (join (map in_flight ts)); rewrite (idle_in_flight _ C), P.
    + now left.
    + right. exists t0, n. repeat split; [now right | exact E].
Qed.

(** *** A goroutine that is scheduled gets its line out *)

Lemma get_none_drop (s : string) (n : nat) :
  String.get n s = None -> drop n s = "".
Proof.
  revert n. induction s as [|x s IH]; intros n H; [now destruct n |].
  destruct n as [|n]; [discriminate |]. exact (IH _ H).
Qed.

Lemma get_some_drop (s : string) (n : nat) (c : ascii) :
  String.get n s = Some c ->
  drop n s = String c (drop (S n) s) /\ n < String.length s.
Proof.
  revert n. induction s as [|x s IH]; intros n H; [destruct n; discriminate |].
  destruct n as [|n].
  - simpl in H. injection H as ->. split; [reflexivity | simpl; lia].
  - destruct (IH _ H) as [E L]. split; [exact E | simpl; lia].
Qed.

Lemma run_write (p0 : pool) (l1 l2 : list thread) (lvl line : string)
      (k n : nat) (s : string) :
  String.length line - n <= k ->
  reachable p0 (mkPool true s false
                       (l1 ++ mkThread (Writing n) lvl line :: l2)) ->
  reachable p0 (mkPool true (s ++ drop n line) false
                       (l1 ++ mkThread AtUnlock lvl line :: l2)).
Proof.
  revert n s. induction k as [|k IH]; intros n s Hk R;
    destruct (String.get n line) as [c|] eqn:G.
  - destruct (get_some_drop _ _ _ G) as [_ L]. lia.
  - rewrite (get_none_drop _ _ G), app_empty_r.
    eapply reach_step; [exact R |].
    exact (step_thread _ _ _ _ _ _ _ _ _
             (ls_written true s (mkThread (Writing n) lvl line) n eq_refl G)).
  - destruct (get_some_drop _ _ _ G) as [E L]. rewrite E.
    change (String c (drop (S n) line)) with (str c ++ drop (S n) line).
    rewrite <- app_assoc_str. apply IH; [lia |].
    eapply reach_step; [exact R |].
    exact (step_thread _ _ _ _ _ _ _ _ _
             (ls_write true s (mkThread (Writing n) lvl line) n c eq_refl G)).
  - rewrite (get_none_drop _ _ G), app_empty_r.
    eapply reach_step; [exact R |].
    exact (step_thread _ _ _ _ _ _ _ _ _
             (ls_written true s (mkThread (Writing n) lvl line) n eq_refl G)).
Qed.

(** From before the lock, with the mutex free, to after the unlock: the
    whole line is on the sink. *)
Lemma run_to_unlocked (p0 : pool) (l1 l2 : list thread) (lvl line s : string) :
  reachable p0 (mkPool false s false (l1 ++ mkThread AtLock lvl line :: l2)) ->
  reachable p0 (mkPool false (s ++ line) false
                       (l1 ++ mkThread AfterUnlock lvl line :: l2)).
Proof.
  intros R.
  eapply reach_step.
  - apply (run_write p0 l1 l2 lvl line (String.length line) 0 s); [lia |].
    eapply reach_step; [exact R |].
    exact (step_thread _ _ _ _ _ _ _ _ _
             (ls_lock s (mkThread AtLock lvl line) eq_refl)).
  - exact (step_thread _ _ _ _ _ _ _ _ _
             (ls_unlock (s ++ line) (mkThread AtUnlock lvl line) eq_refl)).
Qed.

End ConcurrentFacts.

Lemma two_calls_midway_reachable :
  Concurrent.reachable (Concurrent.start two_calls) two_calls_midway.
Proof.
  pose (line1 := render "2024-01-02T15:04:05.123Z" "INFO" "pkg/file.go:42" "first").
  pose (line2 := render "2024-01-02T15:04:05.123Z" "WARN" "pkg/file.go:7" "second").
  pose (t2 := Concurrent.mkThread Concurrent.AtLock "WARN" line2).
  pose (d1 := Concurrent.mkThread Concurrent.Finished "INFO" line1).
  pose proof (ConcurrentFacts.run_to_unlocked (Concurrent.start two_calls)
                [] [t2] "INFO" line1 "" (Concurrent.reach_start _)) as R1.
  pose proof (Concurrent.reach_step _ _ _ R1
                (Concurrent.step_thread _ _ [] _ [t2] _ _ _ _
                   (Concurrent.ls_return false line1
                      (Concurrent.mkThread Concurrent.AfterUnlock "INFO" line1)
                      eq_refl eq_refl eq_refl))) as R2.
  pose proof (Concurrent.reach_step _ _ _ R2
                (Concurrent.step_thread _ _ [d1] _ [] _ _ _ _
                   (Concurrent.ls_lock line1 t2 eq_refl))) as R3.
  exact (Concurrent.reach_step _ _ _ R3
           (Concurrent.step_thread _ _ [d1] _ [] _ _ _ _
              (Concurrent.ls_write true line1
                 (Concurrent.mkThread (Concurrent.Writing 0) "WARN" line2)
                 0 "2"%char eq_refl eq_refl))).
Qed.

(** ** Captured lines and their fields *)

Lemma split_on_nonempty (sep : ascii) (s : string) : split_on sep s <> [].
Proof.
  destruct s as [|c s]; [discriminate |]. cbn [split_on].
  destruct (Ascii.eqb c sep); [discriminate |].
  destruct (split_on sep s); discriminate.
Qed.

Lemma split_on_plain (sep : ascii) (a : string) :
  has_byte sep a = false -> split_on sep a = [a].
Proof.
  induction a as [|x a IH]; [reflexivity |].
  cbn [has_byte split_on]. intros H. apply orb_false_elim in H as [Hx Ha].
  now rewrite Hx, (IH Ha).
Qed.

Lemma split_on_app (sep : ascii) (a rest : string) :
  has_byte sep a = false ->
  split_on sep (a ++ String sep rest) = a :: split_on sep rest.
Proof.
  induction a as [|x a IH]; intros H.
  - cbn [append split_on]. now rewrite Ascii.eqb_refl.
  - cbn [has_byte] in H. apply orb_false_elim in H as [Hx Ha].
    cbn [append split_on]. now rewrite Hx, (IH Ha).
Qed.

Lemma has_byte_app (c : ascii) (a b : string) :
  has_byte c (a ++ b) = has_byte c a || has_byte c b.
Proof.
  induction a as [|x a IH]; [reflexivity |].
  cbn [append has_byte]. now rewrite IH, orb_assoc.
Qed.

Lemma line_of_body (c : Concurrent.call) :
  Concurrent.line_of c = body_of c ++ str newline.
Proof.
  unfold Concurrent.line_of, render, body_of. now rewrite !app_assoc_str.
Qed.

Lemma plain_call_fields (c : Concurrent.call) :
  plain_call c = true ->
  forall f, In f (record_of c) ->
            has_byte tab f = false /\ has_byte newline f = false.
Proof.
  unfold plain_call. rewrite forallb_forall. intros H f I.
  specialize (H f I). unfold plain in H.
  apply andb_prop in H as [H1 H2].
  now rewrite negb_true_iff in H1, H2.
Qed.

Lemma body_no_newline (c : Concurrent.call) :
  plain_call c = true -> has_byte newline (body_of c) = false.
Proof.
  intros H. pose proof (plain_call_fields c H) as F.
  unfold body_of. rewrite !has_byte_app.
  rewrite (proj2 (F _ (or_introl eq_refl))).
  rewrite (proj2 (F _ (or_intror (or_introl eq_refl)))).
  rewrite (proj2 (F _ (or_intror (or_intror (or_introl eq_refl))))).
  rewrite (proj2 (F _ (or_intror (or_intror (or_intror (or_introl eq_refl)))))).
  reflexivity.
Qed.

Lemma fields_body (c : Concurrent.call) :
  plain_call c = true -> fields (body_of c) = record_of c.
Proof.
  intros H. pose proof (plain_call_fields c H) as F.
  unfold fields, body_of, record_of, str.
  cbn [append].
  rewrite split_on_app by exact (proj1 (F _ (or_introl eq_refl))).
  rewrite split_on_app
    by exact (proj1 (F _ (or_intror (or_introl eq_refl)))).
  rewrite split_on_app
    by exact (proj1 (F _ (or_intror (or_intror (or_introl eq_refl))))).
  now rewrite split_on_plain
    by exact (proj1 (F _ (or_intror (or_intror (or_intror (or_introl eq_refl)))))).
Qed.

Lemma captured_lines_join (bodies : list string) :
  Forall (fun b => has_byte newline b = false) bodies ->
  captured_lines
    (Concurrent.join (map (fun b => b ++ str newline) bodies)) = bodies.
Proof.
  unfold captured_lines.
  induction 1 as [|b l Hb _ IH]; [reflexivity |].
  cbn [map Concurrent.join fold_right]. fold (Concurrent.join
    (map (fun b => b ++ str newline) l)).
  rewrite app_assoc_str. cbn [str append].
  rewrite (split_on_app newline b _ Hb).
  pose proof (split_on_nonempty newline
                (Concurrent.join (map (fun b => b ++ str newline) l))) as N.
  destruct (split_on newline
              (Concurrent.join (map (fun b => b ++ str newline) l)))
    as [|h t] eqn:E; [contradiction |].
  cbn [removelast] in *. now rewrite IH.
Qed.

Lemma incl_map_preimage {A B} (f : A -> B) (xs : list A) (l : list B) :
  incl l (map f xs) -> exists ys, l = map f ys /\ incl ys xs.
Proof.
  induction l as [|b l IH]; intros H; [now exists [] |].
  destruct IH as (ys & -> & Hy); [intros x Hx; apply H; now right |].
  assert (Hb : In b (map f xs)) by (apply H; now left).
  apply in_map_iff in Hb as (a & <- & Ha).
  exists (a :: ys). split; [reflexivity |].
  intros x [<- | Hx]; [exact Ha | now apply Hy].
Qed.

(** When the mutex is free and no field of a caller has a tab or a newline in
    it, a reader of the sink captures the records of callers, one a line. *)
Lemma captured_records (calls : list Concurrent.call) (p : Concurrent.pool) :
  Concurrent.reachable (Concurrent.start calls) p ->
  forallb plain_call calls = true ->
  Concurrent.mutex p = false ->
  exists cs : list Concurrent.call,
    incl cs calls /\
    Permutation (map Concurrent.line_of cs)
                (flat_map Concurrent.whole (Concurrent.threads p)) /\
    Concurrent.sink p = Concurrent.join (map Concurrent.line_of cs) /\
    captured_lines (Concurrent.sink p) = map body_of cs /\
    map fields (captured_lines (Concurrent.sink p)) = map record_of cs.
Proof.
  intros R Hplain Hm.
  pose proof (ConcurrentFacts.reachable_lines _ _ R) as Hl.
  rewrite ConcurrentFacts.start_lines in Hl.
  destruct (ConcurrentFacts.reachable_serialized _ _ R) as (Hh & done & Hp & Hs).
  rewrite Hm in Hh.
  rewrite (ConcurrentFacts.no_holder_no_partial _ Hh), app_empty_r in Hs.
  assert (Hin : incl done (map Concurrent.line_of calls)).
  { intros x Hx. rewrite <- Hl. apply ConcurrentFacts.whole_incl.
    now apply (Permutation_in _ Hp). }
  destruct (incl_map_preimage _ _ _ Hin) as (cs & -> & Hcs).
  assert (Pc : Forall (fun c => plain_call c = true) cs).
  { apply Forall_forall. intros c Hc.
    rewrite forallb_forall in Hplain. apply Hplain, Hcs, Hc. }
  assert (C : captured_lines (Concurrent.sink p) = map body_of cs).
  { rewrite Hs.
    replace (map Concurrent.line_of cs)
      with (map (fun b => b ++ str newline) (map body_of cs))
      by (rewrite map_map; apply map_ext; intros c;
          now rewrite line_of_body).
    apply captured_lines_join. apply Forall_map.
    eapply Forall_impl; [| exact Pc].
    intros c Hc. now apply body_no_newline. }
  exists cs. split; [exact Hcs |]. split; [exact Hp |]. split; [exact Hs |].
  split; [exact C |].
  rewrite C, map_map. apply map_ext_in. intros c Hc.
  apply fields_body. rewrite Forall_forall in Pc. now apply Pc.
Qed.

(** The moves of the model on the mutex are [mu.Lock()] and [mu.Unlock()]
    returning: a goroutine passes the lock only where [mu_Lock] returns, and
    the mutex is then in the state [mu_Lock] leaves it in; the same for the
    unlock. *)
Lemma model_uses_the_mutex
      (m m' h : bool) (s s' : string) (t t' : Concurrent.thread) :
  Concurrent.local_step (m, s) t (m', s') t' h ->
  (Concurrent.t_pc t = Concurrent.AtLock ->
   forall w, mu w = m -> mu_Lock w = (set_mu m' w, Ret tt)) /\
  (Concurrent.t_pc t = Concurrent.AtUnlock ->
   forall w, mu w = m -> mu_Unlock w = (set_mu m' w, Ret tt)).
Proof.
  intros L. inversion L; subst; split; intros E w Hw; try congruence.
  - unfold mu_Lock. now rewrite Hw.
  - unfold mu_Unlock. now rewrite Hw.
Qed.

Lemma held_mutex_stops_the_model
      (m' h : bool) (s s' : string) (t t' : Concurrent.thread) :
  Concurrent.t_pc t = Concurrent.AtLock ->
  ~ Concurrent.local_step (true, s) t (m', s') t' h.
Proof. intros E L. inversion L; subst; congruence. Qed.

(** * The claims *)

(** C1. With the mutex free, a call at one of the five severities [L]
    produces a log line exactly when [L] is at least the configured minimum
    [M] in the order INFO < WARN < ERROR < FATAL < PANIC, which is exactly
    when [shouldSkipLog] returns false; and when the configured minimum is
    none of the five valid names, [shouldSkipLog] returns false for every
    level, so every call is emitted. *)
Theorem shouldSkipLog_threshold
        {any} (fmt_Sprintf : string -> list any -> string) (rt : runtime)
        (format : string) (args : list any) (w : world) (L : Severity) :
  mu w = false ->
  match severity_of_string (loggerLevel w) with
  | Some Mi =>
      (shouldSkipLog (level_name L) w = (w, Ret false) <-> rank Mi <= rank L) /\
      (writes (fst (logLevel fmt_Sprintf rt (level_name L) format args w))
       = S (writes w) <-> rank Mi <= rank L)
  | None =>
      forall level : string,
        shouldSkipLog level w = (w, Ret false) /\
        writes (fst (logLevel fmt_Sprintf rt level format args w))
        = S (writes w)
  end.
Proof.
  intros Hmu. destruct (severity_of_string (loggerLevel w)) as [Mi|] eqn:E.
  - apply severity_of_string_name in E.
    rewrite logLevel_run, shouldSkipLog_run, (skip_decision_rank L Mi w E).
    destruct (Nat.leb_spec (rank Mi) (rank L)) as [H | H]; cbn [negb].
    + rewrite logMessage_run by exact Hmu. cbn [fst].
      rewrite writes_write_to. split; split; intros _; (reflexivity || exact H).
    + cbn [fst]. split; split; intros H'; try lia; discriminate.
  - intros level.
    rewrite logLevel_run, shouldSkipLog_run, (skip_decision_invalid level w E).
    rewrite logMessage_run by exact Hmu. cbn [fst].
    now rewrite writes_write_to.
Qed.

Lemma shouldSkipLog_threshold_witness :
  (mu (initial_world "ERROR" "stderr") = false /\
   (shouldSkipLog "WARN" (initial_world "ERROR" "stderr")
    = (initial_world "ERROR" "stderr", Ret false) <-> 2 <= 1) /\
   (writes (fst (logLevel plain_Sprintf sample_runtime "WARN" "late" []
                          (initial_world "ERROR" "stderr")))
    = 1 <-> 2 <= 1)) /\
  (mu (initial_world "DEBUG" "stderr") = false /\
   forall level : string,
     shouldSkipLog level (initial_world "DEBUG" "stderr")
     = (initial_world "DEBUG" "stderr", Ret false) /\
     writes (fst (logLevel plain_Sprintf sample_runtime level "late" []
                           (initial_world "DEBUG" "stderr"))) = 1).
Proof.
  split; (split; [reflexivity |]).
  - exact (shouldSkipLog_threshold plain_Sprintf sample_runtime "late" []
             (initial_world "ERROR" "stderr") WARN eq_refl).
  - exact (shouldSkipLog_threshold plain_Sprintf sample_runtime "late" []
             (initial_world "DEBUG" "stderr") INFO eq_refl).
Defined.

(** [Fatalf] where the filter lets it through. With the mutex free and a
    configured minimum other than PANIC (valid or not), [Fatalf] writes its
    line and then exits the process with [os.Exit(-1)], so control does not
    come back; with the minimum at PANIC the filter stops the call before
    [logMessage]: it returns and writes nothing. *)
Theorem Fatalf_exits_unless_filtered
        {any} (fmt_Sprintf : string -> list any -> string) (rt : runtime)
        (format : string) (args : list any) (w : world) :
  mu w = false ->
  (loggerLevel w <> "PANIC" ->
   Fatalf fmt_Sprintf rt format args w
   = (write_to (output w)
        (render (time_Now rt) "FATAL" (call_site rt 3)
                (TrimRight_newline (fmt_Sprintf format args))) w,
      Exit (-1)%Z)
   /\ (-1 <> 0)%Z) /\
  (loggerLevel w = "PANIC" ->
   Fatalf fmt_Sprintf rt format args w = (w, Ret tt)).
Proof.
  intros Hmu. unfold Fatalf. rewrite logLevel_run, skip_decision_FATAL.
  split; intros H.
  - apply String.eqb_neq in H. rewrite H.
    rewrite logMessage_run by exact Hmu. split; [reflexivity | lia].
  - now rewrite H.
Qed.

Lemma Fatalf_exits_unless_filtered_witness :
  mu (initial_world "FATAL" "stderr") = false /\
  "FATAL" <> "PANIC" /\
  Fatalf plain_Sprintf sample_runtime "disk full" []
         (initial_world "FATAL" "stderr")
  = (write_to os_Stderr
       (render "2024-01-02T15:04:05.123Z" "FATAL" "pkg/file.go:42" "disk full")
       (initial_world "FATAL" "stderr"),
     Exit (-1)%Z).
Proof.
  assert (N : "FATAL" <> "PANIC") by discriminate.
  split; [reflexivity |]. split; [exact N |].
  exact (proj1 (proj1 (Fatalf_exits_unless_filtered plain_Sprintf
                         sample_runtime "disk full" []
                         (initial_world "FATAL" "stderr") eq_refl) N)).
Defined.

(** C2. The code departs from the claim, and from its own comment on
    [Fatalf], which says that it logs the message and terminates the
    application: with the minimum at PANIC, [Fatal("disk full")] returns to
    its caller, writes nothing and does not exit. *)
Lemma Fatalf_under_PANIC_returns :
  Fatalf plain_Sprintf sample_runtime "disk full" []
         (initial_world "PANIC" "stderr")
  = (initial_world "PANIC" "stderr", Ret tt) /\
  ~ (exists w' code,
        Fatalf plain_Sprintf sample_runtime "disk full" []
               (initial_world "PANIC" "stderr") = (w', Exit code)).
Proof.
  split; [reflexivity |]. intros (w' & code & H). discriminate H.
Qed.

(** C3. With the mutex free, whatever the configured minimum (valid or not)
    and whatever the format and arguments, [Panicf] writes its line on the
    sink and then panics with [errors.New] of the message with its trailing
    newlines trimmed. *)
Theorem Panicf_writes_then_panics
        {any} (fmt_Sprintf : string -> list any -> string) (rt : runtime)
        (format : string) (args : list any) (w : world) :
  mu w = false ->
  trim_newlines (fmt_Sprintf format args)
  = Some (TrimRight_newline (fmt_Sprintf format args)) /\
  Panicf fmt_Sprintf rt format args w
  = (write_to (output w)
       (render (time_Now rt) "PANIC" (call_site rt 3)
               (TrimRight_newline (fmt_Sprintf format args))) w,
     Panic (errors_New (TrimRight_newline (fmt_Sprintf format args)))).
Proof.
  intros Hmu. split; [apply trim_newlines_correct |].
  unfold Panicf. rewrite logLevel_run, skip_decision_PANIC.
  now rewrite logMessage_run by exact Hmu.
Qed.

Lemma Panicf_writes_then_panics_witness :
  mu (initial_world "PANIC" "stdout") = false /\
  Panicf plain_Sprintf sample_runtime ("invariant broken" ++ newlines 2) []
         (initial_world "PANIC" "stdout")
  = (write_to os_Stderr
       (render "2024-01-02T15:04:05.123Z" "PANIC" "pkg/file.go:42"
               "invariant broken")
       (initial_world "PANIC" "stdout"),
     Panic (errors_New "invariant broken")).
Proof.
  split; [reflexivity |].
  exact (proj2 (Panicf_writes_then_panics plain_Sprintf sample_runtime
                  ("invariant broken" ++ newlines 2) []
                  (initial_world "PANIC" "stdout") eq_refl)).
Defined.

(** C4. [Initialization] panics, leaving the world as it was (no line is
    written, whatever the filter would say), when the configured level is
    none of the five valid names, and the panic is the one of the level even
    if the output selector is wrong too: the level is checked first. With a
    valid level and a selector that is neither "stderr" nor "stdout" it
    panics on the selector. With a valid level and a valid selector it
    returns, with the sink set to the selected stream. *)
Theorem Initialization_validates (w : world) :
  (severity_of_string (loggerLevel w) = None ->
   Initialization w
   = (w, Panic (fmt_Errorf level_error_format (loggerLevel w)))) /\
  (forall Mi, severity_of_string (loggerLevel w) = Some Mi ->
     (loggerOutput w <> "stderr" -> loggerOutput w <> "stdout" ->
      Initialization w
      = (w, Panic (fmt_Errorf output_error_format (loggerOutput w)))) /\
     (loggerOutput w = "stderr" ->
      Initialization w = set_output os_Stderr w /\
      output (fst (Initialization w)) = os_Stderr) /\
     (loggerOutput w = "stdout" ->
      Initialization w = set_output os_Stdout w /\
      output (fst (Initialization w)) = os_Stdout)).
Proof.
  split.
  - intros E. unfold Initialization, validateLoggerLevel, bind, gets, panic,
      case_of, existsb.
    unfold severity_of_string in E.
    destruct (loggerLevel w =? "INFO"); [discriminate |].
    destruct (loggerLevel w =? "WARN"); [discriminate |].
    destruct (loggerLevel w =? "ERROR"); [discriminate |].
    destruct (loggerLevel w =? "FATAL"); [discriminate |].
    destruct (loggerLevel w =? "PANIC"); [discriminate |].
    reflexivity.
  - intros Mi E. apply severity_of_string_name in E.
    assert (V : validateLoggerLevel w = (w, Ret tt)).
    { unfold validateLoggerLevel, bind, gets, ret. rewrite E.
      destruct Mi; reflexivity. }
    assert (I : Initialization w = setLoggerOutput w)
      by (unfold Initialization, bind at 1; now rewrite V).
    rewrite !I. unfold setLoggerOutput, bind, gets, case_of, existsb.
    split; [| split].
    + intros H1 H2. apply String.eqb_neq in H1, H2. now rewrite H1, H2.
    + intros ->. split; reflexivity.
    + intros ->. split; reflexivity.
Qed.

Lemma Initialization_validates_witness :
  (severity_of_string "DEBUG" = None /\
   Initialization (initial_world "DEBUG" "file")
   = (initial_world "DEBUG" "file",
      Panic (fmt_Errorf level_error_format "DEBUG"))) /\
  (severity_of_string "WARN" = Some WARN /\
   "file" <> "stderr" /\ "file" <> "stdout" /\
   Initialization (initial_world "WARN" "file")
   = (initial_world "WARN" "file",
      Panic (fmt_Errorf output_error_format "file"))) /\
  (severity_of_string "WARN" = Some WARN /\
   output (fst (Initialization (initial_world "WARN" "stdout"))) = os_Stdout).
Proof.
  assert (N1 : "file" <> "stderr") by discriminate.
  assert (N2 : "file" <> "stdout") by discriminate.
  split; [split; [reflexivity |] | split; [split; [reflexivity |] | split; [reflexivity |]]].
  - exact (proj1 (Initialization_validates (initial_world "DEBUG" "file"))
                 eq_refl).
  - split; [exact N1 |]. split; [exact N2 |].
    exact (proj1 (proj2 (Initialization_validates (initial_world "WARN" "file"))
                        WARN eq_refl) N1 N2).
  - exact (proj2 (proj2 (proj2 (proj2 (Initialization_validates
                                         (initial_world "WARN" "stdout"))
                                      WARN eq_refl)) eq_refl)).
Defined.

(** C5. For a caller whose file path contains the marker "/webCrawler/",
    the location is what follows the first occurrence of the marker, then
    ":" and the line, in the line [logMessage] writes; for a path without
    the marker it is the whole path, then ":" and the line. *)
Theorem location_strips_root
        (rt : runtime) (level msg : string) (k : nat) (w : world)
        (file : string) (line : Z) :
  runtime_Caller rt k = (file, line, true) ->
  mu w = false ->
  (contains file programRootPath ->
   exists pre post,
     file = pre ++ programRootPath ++ post /\
     first_occurrence programRootPath pre file /\
     strip_root file = Some post /\
     fst (logMessage rt level msg k w)
     = write_to (output w)
         (render (time_Now rt) level (post ++ ":" ++ itoa line)
                 (TrimRight_newline msg)) w) /\
  (~ contains file programRootPath ->
   strip_root file = Some file /\
   fst (logMessage rt level msg k w)
   = write_to (output w)
       (render (time_Now rt) level (file ++ ":" ++ itoa line)
               (TrimRight_newline msg)) w).
Proof.
  intros Hc Hmu.
  assert (Hsite : forall shown, strip_root file = Some shown ->
                           call_site rt k = shown ++ ":" ++ itoa line).
  { intros shown E. unfold call_site, caller_location, shown_path.
    rewrite Hc. cbn [negb]. now rewrite E. }
  rewrite logMessage_run by exact Hmu. cbn [fst].
  split.
  - intros C.
    destruct (index_from_spec file programRootPath 0)
      as [(A & _) | (pre & post & E & F & _)]; [contradiction |].
    exists pre, post.
    assert (S : strip_root file = Some post)
      by (subst file; now apply strip_root_found).
    now rewrite (Hsite _ S).
  - intros A. pose proof (strip_root_absent _ A) as S.
    now rewrite (Hsite _ S).
Qed.

Lemma location_strips_root_witness :
  (runtime_Caller marked_runtime 3 = ("/x/y/webCrawler/pkg/file.go", 7%Z, true) /\
   mu default_world = false /\
   contains "/x/y/webCrawler/pkg/file.go" programRootPath /\
   exists pre post,
     "/x/y/webCrawler/pkg/file.go" = pre ++ programRootPath ++ post /\
     first_occurrence programRootPath pre "/x/y/webCrawler/pkg/file.go" /\
     strip_root "/x/y/webCrawler/pkg/file.go" = Some post /\
     fst (logMessage marked_runtime "INFO" "started" 3 default_world)
     = write_to os_Stderr
         (render "2024-01-02T15:04:05.123Z" "INFO" (post ++ ":" ++ itoa 7)
                 (TrimRight_newline "started")) default_world) /\
  (runtime_Caller unmarked_runtime 3 = ("/go/src/main.go", 12%Z, true) /\
   ~ contains "/go/src/main.go" programRootPath /\
   fst (logMessage unmarked_runtime "INFO" "started" 3 default_world)
   = write_to os_Stderr
       (render "2024-01-02T15:04:05.123Z" "INFO" "/go/src/main.go:12"
               "started") default_world).
Proof.
  assert (C : contains "/x/y/webCrawler/pkg/file.go" programRootPath)
    by (exists "/x/y", "pkg/file.go"; reflexivity).
  assert (A : ~ contains "/go/src/main.go" programRootPath)
    by (apply index_absent; reflexivity).
  split.
  - split; [reflexivity |]. split; [reflexivity |]. split; [exact C |].
    exact (proj1 (location_strips_root marked_runtime "INFO" "started" 3
                    default_world "/x/y/webCrawler/pkg/file.go" 7%Z
                    eq_refl eq_refl) C).
  - split; [reflexivity |]. split; [exact A |].
    exact (proj2 (proj2 (location_strips_root unmarked_runtime "INFO" "started"
                           3 default_world "/go/src/main.go" 12%Z
                           eq_refl eq_refl) A)).
Defined.

(** C6. Trimming is idempotent; two messages that differ only in how many
    newlines end them are trimmed to the same text and make [logMessage]
    behave the same; and the line [logMessage] writes ends in exactly one
    newline: it is a body whose last byte is not a newline, and then one
    newline. *)
Theorem trim_idempotent_one_newline
        (rt : runtime) (level msg : string) (k : nat) (w : world) :
  (exists t, trim_newlines msg = Some t /\ trim_newlines t = Some t) /\
  (forall i j,
      trim_newlines (msg ++ newlines i) = trim_newlines (msg ++ newlines j) /\
      logMessage rt level (msg ++ newlines i) k w
      = logMessage rt level (msg ++ newlines j) k w) /\
  (mu w = false ->
   exists body,
     fst (logMessage rt level msg k w)
     = write_to (output w) (body ++ str newline) w /\
     last_byte body <> Some newline).
Proof.
  assert (T : forall i, TrimRight_newline (msg ++ newlines i)
                        = TrimRight_newline msg).
  { intros i. destruct (TrimRight_newline_split msg) as (n & E).
    rewrite E at 1. rewrite app_assoc_str.
    replace (newlines n ++ newlines i) with (newlines (n + i))
      by (clear; induction n; simpl; congruence).
    apply TrimRight_newline_body, TrimRight_newline_clean. }
  split; [| split].
  - exists (TrimRight_newline msg). split; [apply trim_newlines_correct |].
    rewrite trim_newlines_correct. f_equal.
    rewrite <- (app_empty_r (TrimRight_newline msg)) at 1.
    apply (TrimRight_newline_body _ 0), TrimRight_newline_clean.
  - intros i j. rewrite !trim_newlines_correct, !T. split; [reflexivity |].
    destruct (mu w) eqn:Hmu.
    + now rewrite !logMessage_blocks.
    + now rewrite !logMessage_run, !T.
  - intros Hmu. rewrite logMessage_run by exact Hmu. cbn [fst].
    destruct (render_one_newline (time_Now rt) level (call_site rt k)
                (TrimRight_newline msg) (TrimRight_newline_clean msg))
      as (body & -> & H).
    now exists body.
Qed.

Lemma trim_idempotent_one_newline_witness :
  mu default_world = false /\
  exists body,
    fst (logMessage sample_runtime "INFO" ("done" ++ newlines 3) 3 default_world)
    = write_to os_Stderr (body ++ str newline) default_world /\
    last_byte body <> Some newline.
Proof.
  split; [reflexivity |].
  exact (proj2 (proj2 (trim_idempotent_one_newline sample_runtime "INFO"
                         ("done" ++ newlines 3) 3 default_world)) eq_refl).
Defined.

(** C7. A call that is not filtered out makes one write on the sink, and the
    line it writes is the timestamp, the level name, the location (a path,
    ":" and the line number) and the trimmed message, in that order, with one
    tab between two fields and one newline at the end. The path is the
    caller's file after its first root marker, or the whole file when it has
    none; the trimmed message is the formatted message without the newlines
    that end it, so it does not end in a newline; and the line ends in one
    newline only: what comes before its last byte does not end in a
    newline. *)
Theorem line_four_fields
        {any} (fmt_Sprintf : string -> list any -> string) (rt : runtime)
        (level format : string) (args : list any) (w : world) :
  mu w = false ->
  shouldSkipLog level w = (w, Ret false) ->
  exists (file path : string) (line : Z) (msg : string) (k : nat),
    caller_location rt 3 = (file, line) /\
    ((~ contains file programRootPath /\ path = file) \/
     (exists pre, first_occurrence programRootPath pre file /\
                  file = pre ++ programRootPath ++ path)) /\
    fmt_Sprintf format args = msg ++ newlines k /\
    last_byte msg <> Some newline /\
    fst (logLevel fmt_Sprintf rt level format args w)
    = write_to (output w)
        (time_Now rt ++ str tab ++ level ++ str tab
           ++ (path ++ ":" ++ itoa line) ++ str tab ++ msg ++ str newline) w /\
    writes (fst (logLevel fmt_Sprintf rt level format args w)) = S (writes w) /\
    exists body,
      time_Now rt ++ str tab ++ level ++ str tab
        ++ (path ++ ":" ++ itoa line) ++ str tab ++ msg ++ str newline
      = body ++ str newline /\
      body = time_Now rt ++ str tab ++ level ++ str tab
               ++ (path ++ ":" ++ itoa line) ++ str tab ++ msg /\
      last_byte body <> Some newline.
Proof.
  intros Hmu Hskip.
  rewrite shouldSkipLog_run in Hskip. injection Hskip as Hskip.
  rewrite logLevel_run, Hskip, logMessage_run by exact Hmu. cbn [fst].
  unfold call_site, shown_path.
  destruct (caller_location rt 3) as (file, line) eqn:Ec.
  destruct (TrimRight_newline_split (fmt_Sprintf format args)) as (k & Ek).
  pose proof (TrimRight_newline_clean (fmt_Sprintf format args)) as Hclean.
  assert (Hpath : exists path,
             strip_root file = Some path /\
             ((~ contains file programRootPath /\ path = file) \/
              (exists pre, first_occurrence programRootPath pre file /\
                           file = pre ++ programRootPath ++ path))).
  { destruct (index_from_spec file programRootPath 0)
      as [(A & _) | (pre & post & E & F & _)].
    - exists file. split; [now apply strip_root_absent | now left].
    - exists post. split; [subst file; now apply strip_root_found |].
      right. now exists pre. }
  destruct Hpath as (path & Es & Hp). rewrite Es.
  exists file, path, line, (TrimRight_newline (fmt_Sprintf format args)), k.
  split; [reflexivity |]. split; [exact Hp |]. split; [exact Ek |].
  split; [exact Hclean |]. split; [reflexivity |].
  split; [apply writes_write_to |].
  destruct (render_one_newline (time_Now rt) level (path ++ ":" ++ itoa line)
              (TrimRight_newline (fmt_Sprintf format args)) Hclean)
    as (body & Eb & Hb).
  exists (time_Now rt ++ str tab ++ level ++ str tab
            ++ (path ++ ":" ++ itoa line) ++ str tab
            ++ TrimRight_newline (fmt_Sprintf format args)).
  split; [now rewrite !app_assoc_str | split; [reflexivity |]].
  rewrite <- !app_assoc_str.
  destruct (TrimRight_newline (fmt_Sprintf format args)) as [|c m] eqn:Et.
  - rewrite app_empty_r, last_byte_snoc. discriminate.
  - rewrite last_byte_app by discriminate. exact Hclean.
Qed.

Lemma line_four_fields_witness :
  mu (initial_world "WARN" "stdout") = false /\
  shouldSkipLog "WARN" (initial_world "WARN" "stdout")
  = (initial_world "WARN" "stdout", Ret false) /\
  exists (file path : string) (line : Z) (msg : string) (k : nat),
    caller_location sample_runtime 3 = (file, line) /\
    ((~ contains file programRootPath /\ path = file) \/
     (exists pre, first_occurrence programRootPath pre file /\
                  file = pre ++ programRootPath ++ path)) /\
    "x=5" ++ newlines 2 = msg ++ newlines k /\
    last_byte msg <> Some newline /\
    fst (logLevel plain_Sprintf sample_runtime "WARN" ("x=5" ++ newlines 2) []
                  (initial_world "WARN" "stdout"))
    = write_to os_Stderr
        ("2024-01-02T15:04:05.123Z" ++ str tab ++ "WARN" ++ str tab
           ++ (path ++ ":" ++ itoa line) ++ str tab ++ msg ++ str newline)
        (initial_world "WARN" "stdout") /\
    writes (fst (logLevel plain_Sprintf sample_runtime "WARN"
                          ("x=5" ++ newlines 2) []
                          (initial_world "WARN" "stdout"))) = 1 /\
    exists body,
      "2024-01-02T15:04:05.123Z" ++ str tab ++ "WARN" ++ str tab
        ++ (path ++ ":" ++ itoa line) ++ str tab ++ msg ++ str newline
      = body ++ str newline /\
      body = "2024-01-02T15:04:05.123Z" ++ str tab ++ "WARN" ++ str tab
               ++ (path ++ ":" ++ itoa line) ++ str tab ++ msg /\
      last_byte body <> Some newline.
Proof.
  split; [reflexivity |]. split; [reflexivity |].
  exact (line_four_fields plain_Sprintf sample_runtime "WARN"
           ("x=5" ++ newlines 2) [] (initial_world "WARN" "stdout")
           eq_refl eq_refl).
Defined.

(** C8. A call at a severity below the configured minimum returns at once
    and leaves the world as it was: nothing is written, and the sink, the
    configuration and the mutex are untouched, even if the mutex is held.
    The formatter is not run, so the result does not depend on it. *)
Theorem below_minimum_no_effect
        {any} (fmt_Sprintf : string -> list any -> string) (rt : runtime)
        (format : string) (args : list any) (w : world) (L Mi : Severity) :
  loggerLevel w = level_name Mi ->
  rank L < rank Mi ->
  shouldSkipLog (level_name L) w = (w, Ret true) /\
  logLevel fmt_Sprintf rt (level_name L) format args w = (w, Ret tt).
Proof.
  intros E H.
  rewrite logLevel_run, shouldSkipLog_run, (skip_decision_rank L Mi w E).
  destruct (Nat.leb_spec (rank Mi) (rank L)); [lia |]. now split.
Qed.

Lemma below_minimum_no_effect_witness :
  loggerLevel (mkWorld "ERROR" "stdout" true os_Stdout [] ["earlier"])
  = level_name ERROR /\
  rank WARN < rank ERROR /\
  logLevel plain_Sprintf sample_runtime "WARN" "ignored" []
           (mkWorld "ERROR" "stdout" true os_Stdout [] ["earlier"])
  = (mkWorld "ERROR" "stdout" true os_Stdout [] ["earlier"], Ret tt).
Proof.
  assert (H : rank WARN < rank ERROR) by (simpl; lia).
  split; [reflexivity |]. split; [exact H |].
  exact (proj2 (below_minimum_no_effect plain_Sprintf sample_runtime "ignored" []
                  (mkWorld "ERROR" "stdout" true os_Stdout [] ["earlier"])
                  WARN ERROR eq_refl H)).
Defined.

(** C10. The loop removes newlines only. A message that ends in a byte
    other than a newline, followed by any number of newlines, keeps that
    byte: "x\r\n" is written as "x\r". In particular a message whose last
    byte is not a newline is written whole, whatever white space ends it. *)
Theorem trim_only_newline
        (rt : runtime) (level s : string) (c : ascii) (n k : nat) (w : world) :
  c <> newline ->
  mu w = false ->
  trim_newlines (s ++ str c ++ newlines n) = Some (s ++ str c) /\
  trim_newlines (s ++ str carriage_return ++ str newline)
  = Some (s ++ str carriage_return) /\
  fst (logMessage rt level (s ++ str c ++ newlines n) k w)
  = write_to (output w)
      (render (time_Now rt) level (call_site rt k) (s ++ str c)) w.
Proof.
  intros Hc Hmu.
  assert (T : forall (d : ascii) (m : nat), d <> newline ->
              TrimRight_newline (s ++ str d ++ newlines m) = s ++ str d).
  { intros d m Hd. rewrite <- app_assoc_str.
    apply TrimRight_newline_body. rewrite last_byte_snoc. congruence. }
  split; [| split].
  - rewrite trim_newlines_correct. f_equal. now apply T.
  - rewrite trim_newlines_correct. f_equal.
    apply (T carriage_return 1). discriminate.
  - rewrite logMessage_run by exact Hmu. cbn [fst]. now rewrite T.
Qed.

Lemma trim_only_newline_witness :
  carriage_return <> newline /\
  mu default_world = false /\
  trim_newlines ("x" ++ str carriage_return ++ newlines 1)
  = Some ("x" ++ str carriage_return) /\
  fst (logMessage sample_runtime "INFO"
                  ("x" ++ str carriage_return ++ newlines 1) 3 default_world)
  = write_to os_Stderr
      (render "2024-01-02T15:04:05.123Z" "INFO" "pkg/file.go:42"
              ("x" ++ str carriage_return)) default_world.
Proof.
  assert (N : carriage_return <> newline) by discriminate.
  split; [exact N |]. split; [reflexivity |].
  pose proof (trim_only_newline sample_runtime "INFO" "x" carriage_return
                1 3 default_world N eq_refl) as (A & _ & B).
  split; [exact A | exact B].
Defined.

(** C9, as the code has it. Whatever the schedule of the concurrent
    callers, the sink holds whole lines of callers, each the rendered record
    of its call, one after the other, followed at most by the part already
    written of the one line whose writer holds the mutex; no two goroutines
    are between [Lock] and [Unlock] together; when the mutex is free the sink
    holds whole lines only, and when every caller is done it holds every
    caller's line once. When no field of any caller (timestamp, level,
    location, trimmed message) has a tab or a newline in it and the mutex is
    free, the lines a reader captures from the sink are the records of
    callers, one a line, each of exactly four fields. The line of a caller is
    the line [logMessage] writes, and the moves of the model on the mutex are
    [mu.Lock()] and [mu.Unlock()] returning. *)
Theorem writes_serialized (calls : list Concurrent.call) (p : Concurrent.pool) :
  Concurrent.reachable (Concurrent.start calls) p ->
  (
  exists (done : list string) (rest : string),
    Concurrent.sink p = Concurrent.join done ++ rest /\
    incl done (map Concurrent.line_of calls) /\
    Permutation done (flat_map Concurrent.whole (Concurrent.threads p)) /\
    Concurrent.holders (Concurrent.threads p) <= 1 /\
    (rest = "" \/
     exists t n, In t (Concurrent.threads p) /\
                 Concurrent.t_pc t = Concurrent.Writing n /\
                 In (Concurrent.t_line t) (map Concurrent.line_of calls) /\
                 rest = String.substring 0 n (Concurrent.t_line t)) /\
    (Concurrent.mutex p = false -> rest = "") /\
    (Forall (fun t => Concurrent.t_pc t = Concurrent.Finished)
            (Concurrent.threads p) ->
     Permutation done (map Concurrent.line_of calls))) /\
  (forallb plain_call calls = true ->
   Concurrent.mutex p = false ->
   exists cs : list Concurrent.call,
     incl cs calls /\
     Permutation (map Concurrent.line_of cs)
                 (flat_map Concurrent.whole (Concurrent.threads p)) /\
     Concurrent.sink p = Concurrent.join (map Concurrent.line_of cs) /\
     captured_lines (Concurrent.sink p) = map body_of cs /\
     map fields (captured_lines (Concurrent.sink p)) = map record_of cs /\
     Forall (fun l => List.length (fields l) = 4)
            (captured_lines (Concurrent.sink p))) /\
  (forall (c : Concurrent.call) (w : world),
      mu w = false ->
      logMessage (Concurrent.call_rt c) (Concurrent.call_level c)
                 (Concurrent.call_msg c) 3 w
      = (write_to (output w) (Concurrent.line_of c) w,
         after_write (Concurrent.call_level c)
                     (TrimRight_newline (Concurrent.call_msg c)))) /\
  (forall (m m' h : bool) (s s' : string) (t t' : Concurrent.thread),
      Concurrent.local_step (m, s) t (m', s') t' h ->
      (Concurrent.t_pc t = Concurrent.AtLock ->
       forall w, mu w = m -> mu_Lock w = (set_mu m' w, Ret tt)) /\
      (Concurrent.t_pc t = Concurrent.AtUnlock ->
       forall w, mu w = m -> mu_Unlock w = (set_mu m' w, Ret tt))) /\
  (forall w, mu w = true -> mu_Lock w = (w, Block)) /\
  (forall (m' h : bool) (s s' : string) (t t' : Concurrent.thread),
      Concurrent.t_pc t = Concurrent.AtLock ->
      ~ Concurrent.local_step (true, s) t (m', s') t' h).
Proof.
  intros R. split; [| split; [| split; [| split; [| split]]]].
  {
    pose proof (ConcurrentFacts.reachable_lines _ _ R) as Hl.
    rewrite ConcurrentFacts.start_lines in Hl.
    destruct (ConcurrentFacts.reachable_serialized _ _ R) as (Hh & done & Hp & Hs).
    assert (H1 : Concurrent.holders (Concurrent.threads p) <= 1)
      by (rewrite Hh; destruct (Concurrent.mutex p); lia).
    exists done, (Concurrent.partial (Concurrent.threads p)).
    split; [exact Hs |]. split; [| split; [exact Hp |]]. 2: split; [exact H1 |].
    - intros x Hx. rewrite <- Hl. apply ConcurrentFacts.whole_incl.
      now apply (Permutation_in _ Hp).
    - split; [| split].
      + destruct (ConcurrentFacts.partial_one _ H1) as [P | (t & n & I & E & P)];
          [now left | right].
        exists t, n. repeat split; try assumption.
        rewrite <- Hl. now apply in_map.
      + intros Hm. rewrite Hm in Hh.
        now apply ConcurrentFacts.no_holder_no_partial.
      + intros F. rewrite <- Hl, <- (ConcurrentFacts.whole_finished _ F).
        exact Hp. }
  - intros Hplain Hm.
    destruct (captured_records calls p R Hplain Hm)
      as (cs & H1 & H2 & H3 & H4 & H5).
    exists cs. repeat (split; [assumption |]).
    apply Forall_forall. intros l Hl.
    assert (Hf : In (fields l) (map record_of cs))
      by (rewrite <- H5; now apply in_map).
    apply in_map_iff in Hf as (c & <- & _). reflexivity.
  - intros c w Hmu. now rewrite logMessage_run by exact Hmu.
  - intros m m' h s s' t t' L. exact (model_uses_the_mutex _ _ _ _ _ _ _ L).
  - intros w Hw. unfold mu_Lock. now rewrite Hw.
  - intros m' h s s' t t' E. now apply held_mutex_stops_the_model.
Qed.

Lemma two_calls_first_done_reachable :
  Concurrent.reachable (Concurrent.start two_calls) two_calls_first_done.
Proof.
  pose (line1 := render "2024-01-02T15:04:05.123Z" "INFO" "pkg/file.go:42" "first").
  pose (line2 := render "2024-01-02T15:04:05.123Z" "WARN" "pkg/file.go:7" "second").
  pose (t2 := Concurrent.mkThread Concurrent.AtLock "WARN" line2).
  pose proof (ConcurrentFacts.run_to_unlocked (Concurrent.start two_calls)
                [] [t2] "INFO" line1 "" (Concurrent.reach_start _)) as R1.
  exact (Concurrent.reach_step _ _ _ R1
           (Concurrent.step_thread _ _ [] _ [t2] _ _ _ _
              (Concurrent.ls_return false line1
                 (Concurrent.mkThread Concurrent.AfterUnlock "INFO" line1)
                 eq_refl eq_refl eq_refl))).
Qed.

Lemma writes_serialized_witness :
  (Concurrent.reachable (Concurrent.start two_calls) two_calls_midway /\
   exists (done : list string) (rest : string),
     Concurrent.sink two_calls_midway = Concurrent.join done ++ rest /\
     incl done (map Concurrent.line_of two_calls) /\
     Permutation done
       (flat_map Concurrent.whole (Concurrent.threads two_calls_midway)) /\
     Concurrent.holders (Concurrent.threads two_calls_midway) <= 1 /\
     (rest = "" \/
      exists t n, In t (Concurrent.threads two_calls_midway) /\
                  Concurrent.t_pc t = Concurrent.Writing n /\
                  In (Concurrent.t_line t) (map Concurrent.line_of two_calls) /\
                  rest = String.substring 0 n (Concurrent.t_line t)) /\
     (Concurrent.mutex two_calls_midway = false -> rest = "") /\
     (Forall (fun t => Concurrent.t_pc t = Concurrent.Finished)
             (Concurrent.threads two_calls_midway) ->
      Permutation done (map Concurrent.line_of two_calls))) /\
  (Concurrent.reachable (Concurrent.start two_calls) two_calls_first_done /\
   forallb plain_call two_calls = true /\
   Concurrent.mutex two_calls_first_done = false /\
   exists cs : list Concurrent.call,
     incl cs two_calls /\
     Permutation (map Concurrent.line_of cs)
                 (flat_map Concurrent.whole
                           (Concurrent.threads two_calls_first_done)) /\
     Concurrent.sink two_calls_first_done
     = Concurrent.join (map Concurrent.line_of cs) /\
     captured_lines (Concurrent.sink two_calls_first_done) = map body_of cs /\
     map fields (captured_lines (Concurrent.sink two_calls_first_done))
     = map record_of cs /\
     Forall (fun l => List.length (fields l) = 4)
            (captured_lines (Concurrent.sink two_calls_first_done))).
Proof.
  split.
  - split; [exact two_calls_midway_reachable |].
    exact (proj1 (writes_serialized two_calls two_calls_midway
                    two_calls_midway_reachable)).
  - split; [exact two_calls_first_done_reachable |].
    split; [reflexivity |]. split; [reflexivity |].
    exact (proj1 (proj2 (writes_serialized two_calls two_calls_first_done
                           two_calls_first_done_reachable))
                 eq_refl eq_refl).
Defined.

Lemma split_call_done_reachable :
  Concurrent.reachable (Concurrent.start [split_call]) split_call_done.
Proof.
  pose proof (ConcurrentFacts.run_to_unlocked (Concurrent.start [split_call])
                [] [] "INFO" (Concurrent.line_of split_call) ""
                (Concurrent.reach_start _)) as R1.
  exact (Concurrent.reach_step _ _ _ R1
           (Concurrent.step_thread _ _ [] _ [] _ _ _ _
              (Concurrent.ls_return false (Concurrent.line_of split_call)
                 (Concurrent.mkThread Concurrent.AfterUnlock "INFO"
                                      (Concurrent.line_of split_call))
                 eq_refl eq_refl eq_refl))).
Qed.

(** C9 as stated fails: one caller alone, whose message is "a", a newline
    and "b", runs to its end with the mutex free, and the reader of the sink
    captures two lines, of four fields and of one field: the second is no
    record. *)
Lemma interior_newline_splits_record :
  Concurrent.reachable (Concurrent.start [split_call]) split_call_done /\
  Forall (fun t => Concurrent.t_pc t = Concurrent.Finished)
         (Concurrent.threads split_call_done) /\
  Concurrent.mutex split_call_done = false /\
  map (fun l => List.length (fields l))
      (captured_lines (Concurrent.sink split_call_done)) = [4; 1] /\
  ~ Forall (fun l => List.length (fields l) = 4)
           (captured_lines (Concurrent.sink split_call_done)).
Proof.
  split; [exact split_call_done_reachable |].
  split; [repeat constructor |]. split; [reflexivity |].
  split; [reflexivity |].
  intros F. inversion F as [| x l _ F']. inversion F' as [| y l' Hy _].
  discriminate Hy.
Qed.

(** * Further properties of the package *)

(** ** Shared facts *)

Lemma write_to_fields (o : Writer) (line : string) (w : world) :
  loggerLevel (write_to o line w) = loggerLevel w /\
  loggerOutput (write_to o line w) = loggerOutput w /\
  mu (write_to o line w) = mu w /\
  output (write_to o line w) = output w /\
  stream o (write_to o line w) = (stream o w ++ [line])%list /\
  stream (other_stream o) (write_to o line w) = stream (other_stream o) w.
Proof. destruct o; repeat split. Qed.

(** The decision of the filter reads the configured level and nothing else. *)
Lemma skip_decision_level (level : string) (w w' : world) :
  loggerLevel w' = loggerLevel w ->
  skip_decision level w' = skip_decision level w.
Proof.
  intros E. unfold skip_decision, shouldSkipLog, bind, gets, ret. rewrite E.
  repeat match goal with
         | |- context [if case_of (loggerLevel w) ?l then _ else _] =>
             destruct (case_of (loggerLevel w) l)
         end;
    repeat match goal with
           | |- context [if ?b then _ else _] => destruct b
           end; reflexivity.
Qed.

(** How [Initialization] can return. *)
Lemma Initialization_returns (w w1 : world) :
  Initialization w = (w1, Ret tt) ->
  case_of (loggerLevel w) ["INFO"; "WARN"; "ERROR"; "FATAL"; "PANIC"] = true /\
  ((loggerOutput w = "stderr" /\ w1 = fst (set_output os_Stderr w)) \/
   (loggerOutput w = "stdout" /\ w1 = fst (set_output os_Stdout w))).
Proof.
  unfold Initialization, validateLoggerLevel, setLoggerOutput, bind, gets,
    ret, panic.
  destruct (case_of (loggerLevel w) ["INFO"; "WARN"; "ERROR"; "FATAL"; "PANIC"]);
    [| discriminate].
  unfold case_of, existsb.
  destruct (String.eqb_spec (loggerOutput w) "stderr") as [E1 | _].
  - cbn [orb]. intros [= <-]. split; [reflexivity | now left].
  - destruct (String.eqb_spec (loggerOutput w) "stdout") as [E2 | _].
    + cbn [orb]. intros [= <-]. split; [reflexivity | now right].
    + cbn [orb]. discriminate.
Qed.

Lemma after_write_plain (level msg : string) :
  level <> "PANIC" -> level <> "FATAL" -> after_write level msg = Ret tt.
Proof.
  intros H1 H2. unfold after_write, case_of, existsb.
  apply String.eqb_neq in H1, H2. now rewrite H1, H2.
Qed.

(** ** The sequential package *)

(** X1. With the mutex free, [Infof], [Warnf] and [Errorf] always return to
    their caller: whatever the configured minimum, the format and the
    arguments, they neither panic nor exit. *)
Theorem plain_levels_return
        {any} (fmt_Sprintf : string -> list any -> string) (rt : runtime)
        (format : string) (args : list any) (w : world) :
  mu w = false ->
  snd (Infof fmt_Sprintf rt format args w) = Ret tt /\
  snd (Warnf fmt_Sprintf rt format args w) = Ret tt /\
  snd (Errorf fmt_Sprintf rt format args w) = Ret tt.
Proof.
  intros Hmu. unfold Infof, Warnf, Errorf. rewrite !logLevel_run.
  repeat split;
    match goal with
    | |- context [skip_decision ?l w] => destruct (skip_decision l w)
    end; try reflexivity;
    rewrite logMessage_run by exact Hmu; reflexivity.
Qed.

Lemma plain_levels_return_witness :
  mu default_world = false /\
  snd (Errorf plain_Sprintf sample_runtime "boom: io" [] default_world) = Ret tt.
Proof.
  split; [reflexivity |].
  exact (proj2 (proj2 (plain_levels_return plain_Sprintf sample_runtime
                         "boom: io" [] default_world eq_refl))).
Defined.

(** X2. A call that finds the mutex free leaves it free, however it ends:
    [logMessage] unlocks before it panics or exits, so a caller that recovers
    from the panic of [Panicf] can log again. [Initialization] does not touch
    the mutex. *)
Theorem mutex_released
        {any} (fmt_Sprintf : string -> list any -> string) (rt : runtime)
        (level format : string) (args : list any) (w : world) :
  mu w = false ->
  mu (fst (logLevel fmt_Sprintf rt level format args w)) = false /\
  mu (fst (Initialization w)) = false.
Proof.
  intros Hmu. split.
  - rewrite logLevel_run. destruct (skip_decision level w); [exact Hmu |].
    rewrite logMessage_run by exact Hmu. cbn [fst].
    now destruct (write_to_fields (output w)
                    (render (time_Now rt) level (call_site rt 3)
                            (TrimRight_newline (fmt_Sprintf format args))) w)
      as (_ & _ & -> & _).
  - unfold Initialization, validateLoggerLevel, setLoggerOutput, bind, gets,
      ret, panic, set_output.
    repeat match goal with
           | |- context [if ?b then _ else _] => destruct b
           end; exact Hmu.
Qed.

Lemma mutex_released_witness :
  mu (initial_world "PANIC" "stderr") = false /\
  mu (fst (logLevel plain_Sprintf sample_runtime "PANIC" "invariant broken" []
                    (initial_world "PANIC" "stderr"))) = false.
Proof.
  split; [reflexivity |].
  exact (proj1 (mutex_released plain_Sprintf sample_runtime "PANIC"
                  "invariant broken" [] (initial_world "PANIC" "stderr")
                  eq_refl)).
Defined.

(** X3. A logging call never changes the configuration or the sink variable,
    never writes on the stream that is not the sink, and on the sink it only
    appends: what was written before stays, followed by one new entry at
    most. This holds in every world, the mutex held or not. *)
Theorem log_call_frame
        {any} (fmt_Sprintf : string -> list any -> string) (rt : runtime)
        (level format : string) (args : list any) (w : world) :
  loggerLevel (fst (logLevel fmt_Sprintf rt level format args w))
  = loggerLevel w /\
  loggerOutput (fst (logLevel fmt_Sprintf rt level format args w))
  = loggerOutput w /\
  output (fst (logLevel fmt_Sprintf rt level format args w)) = output w /\
  stream (other_stream (output w))
         (fst (logLevel fmt_Sprintf rt level format args w))
  = stream (other_stream (output w)) w /\
  exists added : list string,
    stream (output w) (fst (logLevel fmt_Sprintf rt level format args w))
    = (stream (output w) w ++ added)%list /\
    List.length added <= 1.
Proof.
  rewrite logLevel_run.
  assert (Same : loggerLevel w = loggerLevel w /\
                 loggerOutput w = loggerOutput w /\
                 output w = output w /\
                 stream (other_stream (output w)) w
                 = stream (other_stream (output w)) w /\
                 exists added : list string,
                   stream (output w) w = (stream (output w) w ++ added)%list /\
                   List.length added <= 1).
  { repeat split. exists []. split; [now rewrite List.app_nil_r | simpl; lia]. }
  destruct (skip_decision level w); [exact Same |].
  destruct (mu w) eqn:Hmu.
  - now rewrite logMessage_blocks.
  - rewrite logMessage_run by exact Hmu. cbn [fst].
    destruct (write_to_fields (output w)
                (render (time_Now rt) level (call_site rt 3)
                        (TrimRight_newline (fmt_Sprintf format args))) w)
      as (A & B & _ & C & D & E).
    repeat split; try assumption.
    eexists. split; [exact D | simpl; lia].
Qed.

(** X4. When [runtime.Caller] cannot name the caller, the location written
    is the placeholder "???:0", whatever file and line came back with the
    failure, and the call goes on as usual. *)
Theorem caller_unknown_placeholder
        (rt : runtime) (level msg : string) (k : nat) (w : world)
        (file : string) (line : Z) :
  runtime_Caller rt k = (file, line, false) ->
  mu w = false ->
  logMessage rt level msg k w
  = (write_to (output w)
       (render (time_Now rt) level "???:0" (TrimRight_newline msg)) w,
     after_write level (TrimRight_newline msg)).
Proof.
  intros Hc Hmu. rewrite logMessage_run by exact Hmu.
  unfold call_site, caller_location. rewrite Hc. reflexivity.
Qed.

Lemma caller_unknown_placeholder_witness :
  runtime_Caller lost_runtime 3 = ("", 0%Z, false) /\
  mu default_world = false /\
  logMessage lost_runtime "WARN" "x=5" 3 default_world
  = (write_to os_Stderr
       (render "2024-01-02T15:04:05.123Z" "WARN" "???:0" "x=5") default_world,
     Ret tt).
Proof.
  split; [reflexivity |]. split; [reflexivity |].
  exact (caller_unknown_placeholder lost_runtime "WARN" "x=5" 3 default_world
           "" 0%Z eq_refl eq_refl).
Defined.

(** X5. [Initialization] that returns has changed nothing but the sink
    variable: the flags, the mutex and both streams are as before, and
    running it again returns again and changes nothing more. *)
Theorem Initialization_idempotent (w w1 : world) :
  Initialization w = (w1, Ret tt) ->
  Initialization w1 = (w1, Ret tt) /\
  loggerLevel w1 = loggerLevel w /\
  loggerOutput w1 = loggerOutput w /\
  mu w1 = mu w /\
  stderr w1 = stderr w /\
  stdout w1 = stdout w.
Proof.
  intros H. destruct (Initialization_returns _ _ H) as (V & [(E & ->) | (E & ->)]);
    (split; [| now repeat split]);
    unfold Initialization, validateLoggerLevel, setLoggerOutput, bind, gets,
      ret, set_output; cbn [fst loggerLevel loggerOutput];
    rewrite V, E; reflexivity.
Qed.

Lemma Initialization_idempotent_witness :
  Initialization (initial_world "WARN" "stdout")
  = (mkWorld "WARN" "stdout" false os_Stdout [] [], Ret tt) /\
  Initialization (mkWorld "WARN" "stdout" false os_Stdout [] [])
  = (mkWorld "WARN" "stdout" false os_Stdout [] [], Ret tt).
Proof.
  split; [reflexivity |].
  exact (proj1 (Initialization_idempotent (initial_world "WARN" "stdout")
                  (mkWorld "WARN" "stdout" false os_Stdout [] []) eq_refl)).
Defined.

(** X6. After an [Initialization] that returns, a call that passes the
    filter writes its line on the stream the selector names, "stderr" or
    "stdout", and leaves the other stream alone. *)
Theorem initialized_sink
        {any} (fmt_Sprintf : string -> list any -> string) (rt : runtime)
        (level format : string) (args : list any) (w w1 : world) :
  Initialization w = (w1, Ret tt) ->
  mu w = false ->
  shouldSkipLog level w = (w, Ret false) ->
  exists o,
    ((o = os_Stderr /\ loggerOutput w = "stderr") \/
     (o = os_Stdout /\ loggerOutput w = "stdout")) /\
    stream o (fst ((Initialization ;;; logLevel fmt_Sprintf rt level format args) w))
    = (stream o w ++
         [render (time_Now rt) level (call_site rt 3)
                 (TrimRight_newline (fmt_Sprintf format args))])%list /\
    stream (other_stream o)
           (fst ((Initialization ;;; logLevel fmt_Sprintf rt level format args) w))
    = stream (other_stream o) w.
Proof.
  intros HI Hmu Hskip.
  rewrite shouldSkipLog_run in Hskip. injection Hskip as Hskip.
  assert (R : (Initialization ;;; logLevel fmt_Sprintf rt level format args) w
              = logLevel fmt_Sprintf rt level format args w1)
    by (unfold bind at 1; now rewrite HI).
  rewrite !R. clear R.
  destruct (Initialization_returns _ _ HI) as (_ & [(E & ->) | (E & ->)]);
    [exists os_Stderr | exists os_Stdout];
    (split; [tauto |]);
    rewrite logLevel_run, (skip_decision_level level w) by reflexivity;
    rewrite Hskip, logMessage_run by exact Hmu;
    destruct w; split; reflexivity.
Qed.

Lemma initialized_sink_witness :
  Initialization (initial_world "WARN" "stdout")
  = (mkWorld "WARN" "stdout" false os_Stdout [] [], Ret tt) /\
  mu (initial_world "WARN" "stdout") = false /\
  shouldSkipLog "WARN" (initial_world "WARN" "stdout")
  = (initial_world "WARN" "stdout", Ret false) /\
  exists o,
    ((o = os_Stderr /\ "stdout" = "stderr") \/
     (o = os_Stdout /\ "stdout" = "stdout")) /\
    stream o (fst ((Initialization ;;;
                    logLevel plain_Sprintf sample_runtime "WARN" "x=5" [])
                     (initial_world "WARN" "stdout")))
    = (stream o (initial_world "WARN" "stdout") ++
         [render "2024-01-02T15:04:05.123Z" "WARN" "pkg/file.go:42" "x=5"])%list /\
    stream (other_stream o)
           (fst ((Initialization ;;;
                  logLevel plain_Sprintf sample_runtime "WARN" "x=5" [])
                   (initial_world "WARN" "stdout")))
    = stream (other_stream o) (initial_world "WARN" "stdout").
Proof.
  split; [reflexivity |]. split; [reflexivity |]. split; [reflexivity |].
  exact (initialized_sink plain_Sprintf sample_runtime "WARN" "x=5" []
           (initial_world "WARN" "stdout")
           (mkWorld "WARN" "stdout" false os_Stdout [] [])
           eq_refl eq_refl eq_refl).
Defined.

(** X7. A logging call ends in the ways the code writes down and in no
    other: it panics only at level PANIC, with [errors.New] of the trimmed
    message; it exits only at level FATAL, with status -1; it waits only if
    the mutex was held when it was called. No index or slice of
    [logMessage] leaves its string, and [mu.Unlock()] never finds the mutex
    free. *)
Theorem only_declared_endings
        {any} (fmt_Sprintf : string -> list any -> string) (rt : runtime)
        (level format : string) (args : list any) (w : world) :
  match snd (logLevel fmt_Sprintf rt level format args w) with
  | Ret _ => True
  | Panic e =>
      level = "PANIC" /\
      e = errors_New (TrimRight_newline (fmt_Sprintf format args))
  | Exit code => level = "FATAL" /\ code = (-1)%Z
  | Block => mu w = true
  end.
Proof.
  rewrite logLevel_run. destruct (skip_decision level w); [exact I |].
  destruct (mu w) eqn:Hmu.
  - now rewrite logMessage_blocks.
  - rewrite logMessage_run by exact Hmu. cbn [snd].
    unfold after_write, case_of, existsb.
    destruct (String.eqb_spec level "PANIC") as [-> | _]; cbn [orb].
    + now split.
    + destruct (String.eqb_spec level "FATAL") as [-> | _]; cbn [orb];
        [now split | exact I].
Qed.

(** X8. The loop takes away the newlines that end the message and nothing
    else: the message is the trimmed text followed by newlines only, the
    trimmed text does not end in a newline, and no other split of the
    message has these two properties. Newlines inside the message stay. *)
Theorem trim_removes_trailing_newlines_only (msg : string) :
  exists (t : string) (k : nat),
    trim_newlines msg = Some t /\
    msg = t ++ newlines k /\
    last_byte t <> Some newline /\
    forall (t' : string) (k' : nat),
      msg = t' ++ newlines k' -> last_byte t' <> Some newline ->
      t' = t /\ k' = k.
Proof.
  destruct (TrimRight_newline_split msg) as (k & E).
  exists (TrimRight_newline msg), k.
  split; [apply trim_newlines_correct |]. split; [exact E |].
  split; [apply TrimRight_newline_clean |].
  intros t' k' E' C'.
  assert (Ht : t' = TrimRight_newline msg)
    by (rewrite E' at 1; symmetry; now apply TrimRight_newline_body).
  split; [exact Ht |].
  subst t'. rewrite E' in E at 1.
  apply (f_equal String.length) in E.
  rewrite !strlen_app, !length_newlines in E. lia.
Qed.

Lemma trim_removes_trailing_newlines_only_witness :
  exists (t : string) (k : nat),
    trim_newlines ("a" ++ newlines 2 ++ "b" ++ newlines 3) = Some t /\
    "a" ++ newlines 2 ++ "b" ++ newlines 3 = t ++ newlines k /\
    last_byte t <> Some newline /\
    forall (t' : string) (k' : nat),
      "a" ++ newlines 2 ++ "b" ++ newlines 3 = t' ++ newlines k' ->
      last_byte t' <> Some newline ->
      t' = t /\ k' = k.
Proof.
  exact (trim_removes_trailing_newlines_only
           ("a" ++ newlines 2 ++ "b" ++ newlines 3)).
Defined.

(** X9. Two calls made one after the other, both let through by the filter,
    the first at a level that returns, leave their two lines at the end of
    the sink in the order of the calls. *)
Theorem lines_in_call_order
        {any} (fmt_Sprintf : string -> list any -> string) (rt1 rt2 : runtime)
        (level1 format1 : string) (args1 : list any)
        (level2 format2 : string) (args2 : list any) (w : world) :
  mu w = false ->
  level1 <> "PANIC" -> level1 <> "FATAL" ->
  shouldSkipLog level1 w = (w, Ret false) ->
  shouldSkipLog level2 w = (w, Ret false) ->
  stream (output w)
         (fst ((logLevel fmt_Sprintf rt1 level1 format1 args1 ;;;
                logLevel fmt_Sprintf rt2 level2 format2 args2) w))
  = (stream (output w) w ++
       [render (time_Now rt1) level1 (call_site rt1 3)
               (TrimRight_newline (fmt_Sprintf format1 args1));
        render (time_Now rt2) level2 (call_site rt2 3)
               (TrimRight_newline (fmt_Sprintf format2 args2))])%list.
Proof.
  intros Hmu N1 N2 S1 S2.
  rewrite shouldSkipLog_run in S1, S2.
  injection S1 as S1. injection S2 as S2.
  set (l1 := render (time_Now rt1) level1 (call_site rt1 3)
                    (TrimRight_newline (fmt_Sprintf format1 args1))).
  set (l2 := render (time_Now rt2) level2 (call_site rt2 3)
                    (TrimRight_newline (fmt_Sprintf format2 args2))).
  assert (R1 : logLevel fmt_Sprintf rt1 level1 format1 args1 w
               = (write_to (output w) l1 w, Ret tt)).
  { rewrite logLevel_run, S1, logMessage_run by exact Hmu.
    now rewrite after_write_plain. }
  destruct (write_to_fields (output w) l1 w) as (A & _ & B & C & _).
  unfold bind at 1. rewrite R1.
  rewrite logLevel_run, (skip_decision_level level2 w _ A), S2.
  rewrite logMessage_run by (rewrite B; exact Hmu).
  fold l2. rewrite C. cbn [fst].
  destruct w as [a b c o e f], o; cbn; now rewrite <- List.app_assoc.
Qed.

Lemma lines_in_call_order_witness :
  mu default_world = false /\
  "INFO" <> "PANIC" /\ "INFO" <> "FATAL" /\
  shouldSkipLog "INFO" default_world = (default_world, Ret false) /\
  shouldSkipLog "ERROR" default_world = (default_world, Ret false) /\
  stream os_Stderr
         (fst ((logLevel plain_Sprintf sample_runtime "INFO" "one" [] ;;;
                logLevel plain_Sprintf marked_runtime "ERROR" "two" [])
                 default_world))
  = [render "2024-01-02T15:04:05.123Z" "INFO" "pkg/file.go:42" "one";
     render "2024-01-02T15:04:05.123Z" "ERROR" "pkg/file.go:7" "two"].
Proof.
  assert (N1 : "INFO" <> "PANIC") by discriminate.
  assert (N2 : "INFO" <> "FATAL") by discriminate.
  split; [reflexivity |]. split; [exact N1 |]. split; [exact N2 |].
  split; [reflexivity |]. split; [reflexivity |].
  exact (lines_in_call_order plain_Sprintf sample_runtime marked_runtime
           "INFO" "one" [] "ERROR" "two" [] default_world
           eq_refl N1 N2 eq_refl eq_refl).
Defined.

(** ** Concurrent callers: progress and termination *)

Module ScheduleFacts.
Import Concurrent.

(** A goroutine that is not done can move, unless it waits for a mutex that
    is held. *)
Lemma can_move (m : bool) (s : string) (l1 l2 : list thread) (t : thread) :
  (t_pc t = AtLock -> m = false) ->
  (t_pc t = AtUnlock -> m = true) ->
  t_pc t <> Finished ->
  exists p', step (mkPool m s false (l1 ++ t :: l2)) p'.
Proof.
  intros HL HU HF. destruct (t_pc t) as [| n | | |] eqn:E.
  - rewrite (HL eq_refl). eexists. exact (step_thread _ _ _ _ _ _ _ _ _
                                             (ls_lock s t E)).
  - destruct (String.get n (t_line t)) as [c|] eqn:G; eexists.
    + exact (step_thread _ _ _ _ _ _ _ _ _ (ls_write m s t n c E G)).
    + exact (step_thread _ _ _ _ _ _ _ _ _ (ls_written m s t n E G)).
  - rewrite (HU eq_refl). eexists. exact (step_thread _ _ _ _ _ _ _ _ _
                                             (ls_unlock s t E)).
  - destruct (case_of (t_level t) ["PANIC"]) eqn:P; [| destruct
      (case_of (t_level t) ["FATAL"]) eqn:F]; eexists.
    + exact (step_thread _ _ _ _ _ _ _ _ _ (ls_panic m s t true E P)).
    + exact (step_thread _ _ _ _ _ _ _ _ _ (ls_exit m s t E P F)).
    + exact (step_thread _ _ _ _ _ _ _ _ _ (ls_return m s t E P F)).
  - congruence.
Qed.

Lemma holder_exists (ts : list thread) :
  0 < holders ts ->
  exists l1 t l2, ts = (l1 ++ t :: l2)%list /\ critical t = true.
Proof.
  induction ts as [|t ts IH]; [unfold holders; simpl; lia |].
  rewrite ConcurrentFacts.holders_cons. intros H.
  destruct (critical t) eqn:C.
  - now exists [], t, ts.
  - destruct (IH H) as (l1 & t0 & l2 & -> & C0).
    now exists (t :: l1), t0, l2.
Qed.

Lemma no_holder_idle (l1 l2 : list thread) (t : thread) :
  holders (l1 ++ t :: l2) = 0 -> critical t = false.
Proof.
  rewrite ConcurrentFacts.holders_app, ConcurrentFacts.holders_cons.
  destruct (critical t); [lia | reflexivity].
Qed.

Lemma local_step_remaining (ms ms' : bool * string) (t t' : thread) (h : bool) :
  local_step ms t ms' t' h -> remaining t' < remaining t.
Proof.
  destruct 1 as [s t E | m s t n c E G | m s t n E G | s t E
                | m s t h E P | m s t E P F | m s t E P F];
    unfold remaining, at_pc; cbn [t_pc t_line]; rewrite E; try lia.
  destruct (ConcurrentFacts.get_some_drop _ _ _ G) as [_ L]. lia.
Qed.

Lemma step_work (p p' : pool) : step p p' -> work p' < work p.
Proof.
  destruct 1 as [m s l1 t l2 m' s' t' h L]. unfold work. cbn [threads].
  rewrite !map_app, !list_sum_app. cbn [map list_sum fold_right].
  pose proof (local_step_remaining _ _ _ _ _ L). lia.
Qed.

End ScheduleFacts.

Lemma two_calls_locked_run :
  run 1 (Concurrent.start two_calls) two_calls_locked.
Proof.
  apply (run_move 0 _ two_calls_locked); [| apply run_done].
  exact (Concurrent.step_thread false "" [] _ _ _ _ _ _
           (Concurrent.ls_lock ""
              (Concurrent.mkThread Concurrent.AtLock "INFO"
                 (render "2024-01-02T15:04:05.123Z" "INFO" "pkg/file.go:42"
                         "first")) eq_refl)).
Qed.

(** X10. The callers never deadlock: in every state the concurrent callers
    can reach, if the process is alive and some caller has not finished,
    some caller can move. *)
Theorem no_deadlock (calls : list Concurrent.call) (p : Concurrent.pool) :
  Concurrent.reachable (Concurrent.start calls) p ->
  Concurrent.halted p = false ->
  (exists t, In t (Concurrent.threads p) /\
             Concurrent.t_pc t <> Concurrent.Finished) ->
  exists p', Concurrent.step p p'.
Proof.
  intros R Hh (t & I & NF).
  destruct (ConcurrentFacts.reachable_serialized _ _ R) as (Hc & _).
  destruct p as [m s h ts]. cbn [Concurrent.threads Concurrent.mutex
                                  Concurrent.halted] in *. subst h.
  destruct m.
  - destruct (ScheduleFacts.holder_exists ts) as (l1 & t0 & l2 & -> & C);
      [lia |].
    apply ScheduleFacts.can_move; unfold Concurrent.critical in C;
      intros E; rewrite E in C; (reflexivity || discriminate).
  - destruct (in_split _ _ I) as (l1 & l2 & ->).
    pose proof (ScheduleFacts.no_holder_idle _ _ _ Hc) as C.
    apply ScheduleFacts.can_move; [reflexivity | | exact NF].
    intros E. unfold Concurrent.critical in C. rewrite E in C. discriminate.
Qed.

Lemma no_deadlock_witness :
  Concurrent.reachable (Concurrent.start two_calls) two_calls_midway /\
  Concurrent.halted two_calls_midway = false /\
  (exists t, In t (Concurrent.threads two_calls_midway) /\
             Concurrent.t_pc t <> Concurrent.Finished) /\
  exists p', Concurrent.step two_calls_midway p'.
Proof.
  assert (H : exists t, In t (Concurrent.threads two_calls_midway) /\
                        Concurrent.t_pc t <> Concurrent.Finished)
    by (eexists; split; [right; left; reflexivity | discriminate]).
  split; [exact two_calls_midway_reachable |]. split; [reflexivity |].
  split; [exact H |].
  exact (no_deadlock two_calls two_calls_midway two_calls_midway_reachable
           eq_refl H).
Defined.

(** X11. Every schedule ends: a move uses up one of the moves its goroutine
    has left (the lock, one per byte of its line, the end of the write, the
    unlock, the [switch]), so a schedule of [n] moves leaves [n] fewer to
    make, and from the start no schedule is longer than the sum, over the
    callers, of the length of the line plus four. The mutex is not held for
    ever. *)
Theorem runs_are_bounded (n : nat) (p p' : Concurrent.pool) :
  run n p p' ->
  n + work p' <= work p /\
  forall calls, p = Concurrent.start calls ->
    n <= list_sum (map (fun c => String.length (Concurrent.line_of c) + 4)
                       calls).
Proof.
  intros R.
  assert (B : n + work p' <= work p).
  { induction R as [p | n p q r St _ IH]; [lia |].
    pose proof (ScheduleFacts.step_work _ _ St). lia. }
  split; [exact B |].
  intros calls ->.
  assert (W : work (Concurrent.start calls)
              = list_sum (map (fun c => String.length (Concurrent.line_of c) + 4)
                              calls)).
  { unfold work, Concurrent.start. cbn [Concurrent.threads].
    rewrite map_map. reflexivity. }
  lia.
Qed.

Lemma runs_are_bounded_witness :
  run 1 (Concurrent.start two_calls) two_calls_locked /\
  1 + work two_calls_locked <= work (Concurrent.start two_calls).
Proof.
  split; [exact two_calls_locked_run |].
  exact (proj1 (runs_are_bounded 1 (Concurrent.start two_calls)
                  two_calls_locked two_calls_locked_run)).
Defined.

(** ** The filter after [Initialization] *)

Lemma valid_level_name (level : string) :
  case_of level ["INFO"; "WARN"; "ERROR"; "FATAL"; "PANIC"] = true ->
  exists Mi, level = level_name Mi.
Proof.
  unfold case_of, existsb.
  destruct (String.eqb_spec level "INFO") as [-> | _]; [now exists INFO |].
  destruct (String.eqb_spec level "WARN") as [-> | _]; [now exists WARN |].
  destruct (String.eqb_spec level "ERROR") as [-> | _]; [now exists ERROR |].
  destruct (String.eqb_spec level "FATAL") as [-> | _]; [now exists FATAL |].
  destruct (String.eqb_spec level "PANIC") as [-> | _]; [now exists PANIC |].
  discriminate.
Qed.

(** X12. Once [Initialization] has returned, the configured minimum is one
    of the five severities, so the branch of [shouldSkipLog] that lets
    everything through for an unknown minimum can only be taken for INFO:
    the filter skips a call at severity [L] exactly when [L] is below the
    minimum. *)
Theorem initialized_filter_by_rank (w w1 : world) :
  Initialization w = (w1, Ret tt) ->
  exists Mi : Severity,
    loggerLevel w1 = level_name Mi /\
    forall L : Severity,
      shouldSkipLog (level_name L) w1
      = (w1, Ret (rank L <? rank Mi)%nat).
Proof.
  intros H. destruct (Initialization_returns _ _ H) as (V & Hw).
  destruct (valid_level_name _ V) as (Mi & E).
  assert (E1 : loggerLevel w1 = level_name Mi)
    by (destruct Hw as [(_ & ->) | (_ & ->)]; exact E).
  exists Mi. split; [exact E1 |].
  intros L. rewrite shouldSkipLog_run, (skip_decision_rank L Mi w1 E1).
  do 2 f_equal.
  destruct (Nat.leb_spec (rank Mi) (rank L)), (Nat.ltb_spec (rank L) (rank Mi));
    (reflexivity || lia).
Qed.

Lemma initialized_filter_by_rank_witness :
  Initialization (initial_world "FATAL" "stderr")
  = (initial_world "FATAL" "stderr", Ret tt) /\
  exists Mi : Severity,
    loggerLevel (initial_world "FATAL" "stderr") = level_name Mi /\
    forall L : Severity,
      shouldSkipLog (level_name L) (initial_world "FATAL" "stderr")
      = (initial_world "FATAL" "stderr", Ret (rank L <? rank Mi)%nat).
Proof.
  split; [reflexivity |].
  exact (initialized_filter_by_rank (initial_world "FATAL" "stderr")
           (initial_world "FATAL" "stderr") eq_refl).
Defined.
